(** * skillswap: the recommendation scorer of [ai/recommendation/service.py]

    A shallow embedding of [get_recommendations] and [generate_learning_path]
    together with the fragment of numpy the scorer calls.

    Numbers.  numpy's float64 is read as exact real arithmetic: rounding and
    overflow are left out, and the three IEEE values a division by zero can
    produce (inf, -inf, nan) are kept, because numpy returns them (with a
    warning) instead of raising.  The statements below concern shapes,
    exceptions, which products are taken and the order of the scores; where
    one compares a score with its baseline, it does so by an inequality
    that rounding keeps.

    Arrays.  An array is 0-, 1- or 2-dimensional.  Every numpy call of the
    scorer is defined on all of these shapes, raising the exception numpy
    raises where the shapes do not fit.

    Outside the sources.  [encode_skills] is imported from [model.py], which
    is not part of the sources; it is a parameter.  [np.argsort] with its
    default [kind] promises no order among equal scores; it is a parameter
    too, constrained by [argsort_spec].

    Objects.  The scorer is embedded twice: as a function of the values of
    its arguments ([get_recommendations]), on which most statements are
    made, and as a program on a heap of Python objects
    ([get_recommendations_st]), in which arguments are references and the
    two in-place updates of the source are writes.  The second refines to
    the first and leaves the objects of its caller alone. *)

From Stdlib Require Import Reals Lra.
From Stdlib Require PrimFloat.
From stdpp Require Import base list strings gmap sorting.

(** ** Exceptions *)

Inductive exn := ValueError | AxisError | IndexError | TypeError.

Inductive result (A : Type) :=
| Ok (a : A)
| Raise (e : exn).
Arguments Ok {A} a.
Arguments Raise {A} e.

Definition bind {A B} (m : result A) (f : A → result B) : result B :=
  match m with
  | Ok a => f a
  | Raise e => Raise e
  end.

Notation "'let*' x ':=' m 'in' k" := (bind m (λ x, k))
  (at level 10, x name, m at level 100, k at level 200).

(** A list comprehension whose body can raise. *)
Fixpoint comprehension {A B} (f : A → result B) (l : list A) : result (list B) :=
  match l with
  | [] => Ok []
  | x :: l =>
      let* y := f x in
      let* k := comprehension f l in
      Ok (y :: k)
  end.

(** ** float64, without rounding

    A float64 value is the real number it denotes, or one of inf, -inf and
    nan.  The three operations below ([np_true_divide], [np_multiply] and,
    further down, [norm2] with [inner]) return the exact real result where
    numpy rounds it to the nearest float64, and they know neither overflow
    nor underflow.  What is proved about the scorer further down is stated
    so as not to depend on this: it concerns shapes, exceptions, which
    products are taken in which order, and the order of the scores numpy
    sorts by; where a statement compares a score with its baseline, it does
    so with an inequality that rounding to nearest keeps.  The one use of
    exactness is a norm that is zero: here it means that the vector is zero,
    whereas float64 also gives 0.0 for a vector whose squares underflow.
    The product as float64 computes it is [float64_imul] below. *)

Inductive npfloat :=
| Finite (r : R)
| PosInf
| NegInf
| NaN.

#[global] Instance R_eq_dec : EqDecision R := Req_dec_T.
#[global] Instance Rle_decision (x y : R) : Decision (x <= y)%R := Rle_dec x y.
#[global] Instance Rlt_decision (x y : R) : Decision (x < y)%R := Rlt_dec x y.

(** [x / y] on float64 operands, as the exact quotient: a zero divisor
    gives nan or a signed infinity.  The divisors of the scorer are products
    of norms, so a zero divisor is +0.0. *)
Definition np_true_divide (x y : R) : npfloat :=
  if decide (y = 0%R) then
    if decide (x = 0%R) then NaN
    else if decide (0 < x)%R then PosInf else NegInf
  else Finite (x / y).

(** [a * c] for a float64 [a] and a finite constant [c], as the exact
    product. *)
Definition np_multiply (a : npfloat) (c : R) : npfloat :=
  match a with
  | Finite r => Finite (r * c)
  | PosInf =>
      if decide (c = 0%R) then NaN else if decide (0 < c)%R then PosInf else NegInf
  | NegInf =>
      if decide (c = 0%R) then NaN else if decide (0 < c)%R then NegInf else PosInf
  | NaN => NaN
  end.

(** The product of [similarities[i] *= c] as float64 computes it, and the
    float64 values that the literals 1.2, 0.8 and 0.96 denote. *)
Section Float64.
Import PrimFloat.

Definition float64_imul (s c : float) : float := PrimFloat.mul s c.

Definition float64_1_2 : float := 0x1.3333333333333p+0%float.
Definition float64_0_8 : float := 0x1.999999999999ap-1%float.
Definition float64_0_96 : float := 0x1.eb851eb851eb8p-1%float.

(** Two scores: 0.19611613513818404, the float64 nearest to 1/sqrt 26, and
    5e-324, the smallest positive float64. *)
Definition float64_inv_sqrt_26 : float := 0x1.91a556151761cp-3%float.
Definition float64_tiny : float := 0x1p-1074%float.

End Float64.

(** The order numpy sorts by: -inf, the reals, inf, and nan last. *)
Definition np_le (a b : npfloat) : Prop :=
  match a, b with
  | _, NaN => True
  | NaN, _ => False
  | NegInf, _ => True
  | _, NegInf => False
  | _, PosInf => True
  | PosInf, _ => False
  | Finite x, Finite y => (x <= y)%R
  end.

#[global] Instance np_le_dec (a b : npfloat) : Decision (np_le a b).
Proof. destruct a, b; simpl; apply _. Defined.

(** ** numpy arrays of up to two dimensions *)

Inductive ndarray (A : Type) :=
| Arr0 (x : A)
| Arr1 (v : list A)
| Arr2 (cols : nat) (rows : list (list A)).
Arguments Arr0 {A} x.
Arguments Arr1 {A} v.
Arguments Arr2 {A} cols rows.

(** [Arr2 cols rows] has shape [(length rows, cols)]; it is an array when
    every row has [cols] entries. *)
Definition wf_array {A} (a : ndarray A) : Prop :=
  match a with
  | Arr2 cols rows => Forall (λ row, length row = cols) rows
  | _ => True
  end.

Definition array_map {A B} (f : A → B) (a : ndarray A) : ndarray B :=
  match a with
  | Arr0 x => Arr0 (f x)
  | Arr1 v => Arr1 (fmap (M:=list) f v)
  | Arr2 cols rows => Arr2 cols (fmap (M:=list) (fmap (M:=list) f) rows)
  end.

Definition column (j : nat) (rows : list (list R)) : list R :=
  (λ row, nth j row 0%R) <$> rows.

Definition columns (cols : nat) (rows : list (list R)) : list (list R) :=
  (λ j, column j rows) <$> seq 0 cols.

(** [a.T] *)
Definition np_T (a : ndarray R) : ndarray R :=
  match a with
  | Arr2 cols rows => Arr2 (length rows) (columns cols rows)
  | _ => a
  end.

Definition Rsum (v : list R) : R := foldr Rplus 0%R v.

Definition inner (u v : list R) : R := Rsum (zip_with Rmult u v).

(** [np.dot(a, b)] *)
Definition np_dot (a b : ndarray R) : result (ndarray R) :=
  match a, b with
  | Arr0 x, _ => Ok (array_map (Rmult x) b)
  | _, Arr0 y => Ok (array_map (λ x, (x * y)%R) a)
  | Arr1 u, Arr1 v =>
      if decide (length u = length v) then Ok (Arr0 (inner u v))
      else Raise ValueError
  | Arr1 u, Arr2 cols rows =>
      if decide (length u = length rows) then Ok (Arr1 (inner u <$> columns cols rows))
      else Raise ValueError
  | Arr2 cols rows, Arr1 v =>
      if decide (cols = length v) then Ok (Arr1 ((λ row, inner row v) <$> rows))
      else Raise ValueError
  | Arr2 cols rows, Arr2 cols' rows' =>
      if decide (cols = length rows')
      then Ok (Arr2 cols' ((λ row, inner row <$> columns cols' rows') <$> rows))
      else Raise ValueError
  end.

(** The 2-norm, as the exact square root of the exact sum of squares. *)
Definition norm2 (v : list R) : R := sqrt (Rsum ((λ x, (x * x)%R) <$> v)).

(** [np.linalg.norm(a, axis=1)]: one norm per row of a matrix. *)
Definition np_linalg_norm_axis1 (a : ndarray R) : result (list R) :=
  match a with
  | Arr2 _ rows => Ok (norm2 <$> rows)
  | _ => Raise AxisError
  end.

(** [np.linalg.norm(a)]: the norm of all entries. *)
Definition np_linalg_norm (a : ndarray R) : R :=
  match a with
  | Arr0 x => norm2 [x]
  | Arr1 v => norm2 v
  | Arr2 _ rows => norm2 (concat rows)
  end.

(** [a / w] for a one-dimensional [w], with numpy's broadcasting: the last
    axis of [a] has to be as long as [w], unless one of the two is 1. *)
Definition np_divide (a : ndarray R) (w : list R) : result (ndarray npfloat) :=
  match a with
  | Arr0 x => Ok (Arr1 (np_true_divide x <$> w))
  | Arr1 v =>
      if decide (length v = length w) then Ok (Arr1 (zip_with np_true_divide v w))
      else if decide (length v = 1) then Ok (Arr1 (np_true_divide (nth 0 v 0%R) <$> w))
      else if decide (length w = 1)
      then Ok (Arr1 ((λ x, np_true_divide x (nth 0 w 0%R)) <$> v))
      else Raise ValueError
  | Arr2 cols rows =>
      if decide (cols = length w)
      then Ok (Arr2 cols ((λ row, zip_with np_true_divide row w) <$> rows))
      else if decide (cols = 1)
      then Ok (Arr2 (length w) ((λ row, np_true_divide (nth 0 row 0%R) <$> w) <$> rows))
      else if decide (length w = 1)
      then Ok (Arr2 cols ((λ row : list R, (λ x, np_true_divide x (nth 0 w 0%R)) <$> row) <$> rows))
      else Raise ValueError
  end.

(** [a[i] *= c]: one entry of a vector, one row of a matrix. *)
Definition imul_at (c : R) (i : nat) (a : ndarray npfloat) : result (ndarray npfloat) :=
  match a with
  | Arr0 _ => Raise IndexError
  | Arr1 v =>
      if decide (i < length v) then Ok (Arr1 (alter (λ x, np_multiply x c) i v))
      else Raise IndexError
  | Arr2 cols rows =>
      if decide (i < length rows)
      then Ok (Arr2 cols (alter (fmap (λ x, np_multiply x c)) i rows))
      else Raise IndexError
  end.

(** [l[-5:]] and [l[::-1]] on the first axis. *)
Definition last5 {A} (l : list A) : list A := drop (length l - 5) l.

Definition np_last5 {A} (a : ndarray A) : result (ndarray A) :=
  match a with
  | Arr0 _ => Raise IndexError
  | Arr1 v => Ok (Arr1 (last5 v))
  | Arr2 cols rows => Ok (Arr2 cols (last5 rows))
  end.

Definition np_reversed {A} (a : ndarray A) : result (ndarray A) :=
  match a with
  | Arr0 _ => Raise IndexError
  | Arr1 v => Ok (Arr1 (reverse v))
  | Arr2 cols rows => Ok (Arr2 cols (reverse rows))
  end.

(** What [argsort] has to return on a vector: the indices [0 .. n-1] in an
    order in which the entries ascend; equal entries in any order. *)
Definition key (v : list npfloat) (i : nat) : npfloat := default NaN (v !! i).

Definition key_le (v : list npfloat) (i j : nat) : Prop := np_le (key v i) (key v j).

Definition argsort_spec (argsort : list npfloat → list nat) : Prop :=
  ∀ v, argsort v ≡ₚ seq 0 (length v) ∧ StronglySorted (key_le v) (argsort v).

#[global] Instance key_le_dec v i j : Decision (key_le v i j).
Proof. unfold key_le. apply _. Defined.

(** One sort that meets [argsort_spec]: insertion sort, which keeps equal
    entries in index order. *)
Fixpoint insert_index (v : list npfloat) (i : nat) (sorted : list nat) : list nat :=
  match sorted with
  | [] => [i]
  | j :: rest =>
      if decide (key_le v i j) then i :: sorted else j :: insert_index v i rest
  end.

Definition stable_argsort (v : list npfloat) : list nat :=
  foldr (insert_index v) [] (seq 0 (length v)).

(** [argsort(v)[-5:][::-1]] on a vector. *)
Definition ranked (sort : list npfloat → list nat) (v : list npfloat) : list nat :=
  reverse (last5 (sort v)).

(** [all_skills[i]] for a Python list and an integer index that is not
    negative. *)
Definition list_getitem (l : list string) (i : nat) : result string :=
  match l !! i with
  | Some s => Ok s
  | None => Raise IndexError
  end.

(** ** The service *)

Record recommendation := {
  recommended_skills : list string;
  recommended_users : list nat;
  learning_path : list string
}.

(** [feedback] is [None] or a dict; [feedback.get(key, [])]. *)
Definition feedback_get (feedback : gmap string (list string)) (key : string) : list string :=
  default [] (feedback !! key).

(** [generate_learning_path(current_skills, recommended_skills)] *)
Definition generate_learning_path (current_skills recommended_skills : list string)
  : list string :=
  let path := ["Foundation Skills"] in
  let path := if decide (2 < length current_skills)
              then path ++ ["Intermediate Topics"] else path in
  let path := path ++ take 3 recommended_skills in
  path ++ ["Advanced Mastery"].

Section Scorer.

Variable encode_skills : list string → ndarray R.
Variable np_argsort1 : list npfloat → list nat.

(** [np.argsort(a)], along the last axis; a 0-d array is ravelled first. *)
Definition np_argsort (a : ndarray npfloat) : ndarray nat :=
  match a with
  | Arr0 x => Arr1 (np_argsort1 [x])
  | Arr1 v => Arr1 (np_argsort1 v)
  | Arr2 cols rows => Arr2 cols (np_argsort1 <$> rows)
  end.

(** The right operand of the division of line 9. *)
Definition divisors (user_skills all_skills : list string) : result (list R) :=
  let user_vector := encode_skills user_skills in
  let skill_vectors := encode_skills all_skills in
  let* norms := np_linalg_norm_axis1 skill_vectors in
  Ok ((λ x, (x * np_linalg_norm user_vector)%R) <$> norms).

(** Lines 6 to 9: the cosine similarities. *)
Definition similarities (user_skills all_skills : list string)
  : result (ndarray npfloat) :=
  let user_vector := encode_skills user_skills in
  let skill_vectors := encode_skills all_skills in
  let* dots := np_dot skill_vectors (np_T user_vector) in
  let* w := divisors user_skills all_skills in
  np_divide dots w.

(** The body of the loop of lines 13 to 17, for index [i]. *)
Definition feedback_step (feedback : gmap string (list string))
    (i : nat) (skill : string) (sims : ndarray npfloat) : result (ndarray npfloat) :=
  let* sims := (if decide (skill ∈ feedback_get feedback "liked")
                then imul_at 1.2 i sims else Ok sims) in
  if decide (skill ∈ feedback_get feedback "disliked")
  then imul_at 0.8 i sims else Ok sims.

(** [for i, skill in enumerate(all_skills)], from index [i] on. *)
Fixpoint feedback_loop (feedback : gmap string (list string))
    (i : nat) (skills : list string) (sims : ndarray npfloat)
  : result (ndarray npfloat) :=
  match skills with
  | [] => Ok sims
  | skill :: skills =>
      let* sims := feedback_step feedback i skill sims in
      feedback_loop feedback (S i) skills sims
  end.

(** Lines 12 to 17; an empty dict is as false as [None]. *)
Definition adjust (feedback : option (gmap string (list string)))
    (all_skills : list string) (sims : ndarray npfloat) : result (ndarray npfloat) :=
  match feedback with
  | Some fb =>
      if decide (fb = ∅) then Ok sims else feedback_loop fb 0 all_skills sims
  | None => Ok sims
  end.

(** Line 21: iterating a vector gives integers, iterating a matrix gives
    its rows, which do not index a list. *)
Definition pick (all_skills : list string) (indices : ndarray nat)
  : result (list string) :=
  match indices with
  | Arr0 _ => Raise TypeError
  | Arr1 v => comprehension (list_getitem all_skills) v
  | Arr2 _ [] => Ok []
  | Arr2 _ (_ :: _) => Raise TypeError
  end.

(** The scores that are ranked: lines 6 to 17. *)
Definition pre_rank_scores (user_skills all_skills : list string)
    (feedback : option (gmap string (list string))) : result (ndarray npfloat) :=
  let* sims := similarities user_skills all_skills in
  adjust feedback all_skills sims.

(** Line 19. *)
Definition top_indices (sims : ndarray npfloat) : result (ndarray nat) :=
  let* tail := np_last5 (np_argsort sims) in
  np_reversed tail.

Definition get_recommendations (user_skills all_skills user_exchanges : list string)
    (feedback : option (gmap string (list string))) : result recommendation :=
  let* sims := similarities user_skills all_skills in
  let* sims := adjust feedback all_skills sims in
  let* top := top_indices sims in
  let* recommended_skills := pick all_skills top in
  let recommended_users := [] in
  let learning_path := generate_learning_path user_skills recommended_skills in
  Ok {| recommended_skills := recommended_skills;
        recommended_users := recommended_users;
        learning_path := learning_path |}.

End Scorer.

(** ** Closed forms

    What the scorer computes when the user side is encoded as one vector
    [u] and the catalog as a matrix [rows]; the lemmas below relate them to
    the code. *)

Definition cosine (u row : list R) : npfloat :=
  np_true_divide (inner row u) (norm2 row * norm2 u).

Definition adjusted_score (feedback : gmap string (list string))
    (skill : string) (x : npfloat) : npfloat :=
  let x := if decide (skill ∈ feedback_get feedback "liked")
           then np_multiply x 1.2 else x in
  if decide (skill ∈ feedback_get feedback "disliked")
  then np_multiply x 0.8 else x.

Definition final_scores (feedback : option (gmap string (list string)))
    (all_skills : list string) (base : list npfloat) : list npfloat :=
  match feedback with
  | Some fb =>
      if decide (fb = ∅) then base else zip_with (adjusted_score fb) all_skills base
  | None => base
  end.

(** Entry [i] of [scores] is at least entry [j]. *)
Definition score_ge (scores : list R) (i j : nat) : Prop :=
  ∀ x y, scores !! i = Some x → scores !! j = Some y → (y <= x)%R.

(** ** An encoder to run the scorer on

    A one-hot code over a vocabulary; a name outside the vocabulary gets the
    zero vector.  A single name is returned as one vector (the squeezed
    one-row matrix), any other number of names as a matrix with a row per
    name. *)
Definition one_hot (vocabulary : list string) (name : string) : list R :=
  (λ word, if decide (word = name) then 1%R else 0%R) <$> vocabulary.

Definition squeezed_one_hot (vocabulary names : list string) : ndarray R :=
  match names with
  | [name] => Arr1 (one_hot vocabulary name)
  | _ => Arr2 (length vocabulary) (one_hot vocabulary <$> names)
  end.

(** Test data: a six-language catalog that is also the vocabulary, a
    catalog with a name outside the vocabulary, a catalog with an entry
    named like the marker of the learning path, and two feedback dicts. *)
Definition languages : list string := ["python"; "java"; "go"; "rust"; "c++"; "ruby"].

Definition with_unknown : list string := ["java"; "cobol"].

Definition with_marker : list string := ["python"; "Intermediate Topics"].


Definition likes_python_dislikes_java : gmap string (list string) :=
  <["liked" := ["python"]]> {["disliked" := ["java"]]}.

(** An encoder by table lookup: a name has the vector the table gives it,
    a name outside the table the zero vector; a single name is returned as
    one vector, as in [squeezed_one_hot]. *)
Definition embedding (table : gmap string (list R)) (width : nat) (name : string)
  : list R :=
  default (replicate width 0%R) (table !! name).

Definition squeezed_embedding (table : gmap string (list R)) (width : nat)
    (names : list string) : ndarray R :=
  match names with
  | [name] => Arr1 (embedding table width name)
  | _ => Arr2 width (embedding table width <$> names)
  end.

(** Three languages on an axis each, and a profile name that has a share
    in all of them and in a fourth axis. *)
Definition stack_table : gmap string (list R) :=
  <["fullstack" := [1; 1; 1; 1]%R]>
  (<["python" := [1; 0; 0; 0]%R]>
  (<["java" := [0; 1; 0; 0]%R]>
  (<["go" := [0; 0; 1; 0]%R]> ∅))).

Definition three_languages : list string := ["python"; "java"; "go"].

Definition likes_python_java_dislikes_java_go : gmap string (list string) :=
  <["liked" := ["python"; "java"]]> {["disliked" := ["java"; "go"]]}.

(** ** Vocabulary of the further properties *)

(** [a.ndim] *)
Definition ndim {A} (a : ndarray A) : nat :=
  match a with
  | Arr0 _ => 0
  | Arr1 _ => 1
  | Arr2 _ _ => 2
  end.

(** [skill] is in one of the two lists the loop of lines 13 to 17 reads. *)
Definition mentions (feedback : gmap string (list string)) (skill : string) : Prop :=
  skill ∈ feedback_get feedback "liked" ∨ skill ∈ feedback_get feedback "disliked".

#[global] Instance mentions_dec fb skill : Decision (mentions fb skill).
Proof. unfold mentions. apply _. Defined.

(** A one-hot encoder that encodes every distinct name once, so that a
    catalog with a repeated name gets fewer rows than it has entries. *)
Definition distinct_one_hot (vocabulary names : list string) : ndarray R :=
  squeezed_one_hot vocabulary (remove_dups names).

Definition with_repeat : list string := ["java"; "go"; "java"].

(** A second sort that meets [argsort_spec]: it leaves equal entries in
    descending index order. *)
Definition tie_reversing_argsort (v : list npfloat) : list nat :=
  foldr (insert_index v) [] (reverse (seq 0 (length v))).

(** ** The endpoint of [ai/recommendation/api.py] *)

Module Api.

Record Feedback := {
  liked : list string;
  disliked : list string
}.

Record RecommendationRequest := {
  user_id : Z;
  user_skills : list string;
  all_skills : list string;
  user_exchanges : list string;
  feedback : option Feedback
}.

(** [feedback.dict()]: a dict with the two fields as keys. *)
Definition dict (f : Feedback) : gmap string (list string) :=
  <["liked" := liked f]> (<["disliked" := disliked f]> ∅).

(** [recommend(user_id, request)]; a model instance is true, so the
    feedback is passed on as a dict whenever the request has one. *)
Definition recommend (encode_skills : list string → ndarray R)
    (np_argsort1 : list npfloat → list nat)
    (user_id : Z) (request : RecommendationRequest) : result recommendation :=
  let recommendations :=
    get_recommendations encode_skills np_argsort1
      (user_skills request)
      (all_skills request)
      (user_exchanges request)
      (match feedback request with
       | Some f => Some (dict f)
       | None => None
       end) in
  recommendations.

End Api.

(** ** The service on Python's objects

    Python passes lists, dicts and arrays by reference, and the service
    changes two objects in place: the array [similarities] (lines 15 and
    17) and the list [path] (lines 33 to 37).  Here the objects live in a
    heap, an argument is the location of its object, and every statement of
    the source reads, allocates or writes as Python does.  numpy's
    functions are taken with their documented behaviour: they read their
    operands and return a new array; the temporaries of lines 9 and 19 that
    nothing can reach afterwards are values. *)

Abbreviation loc := nat (only parsing).

Inductive pyobj :=
| PyList (items : list string)
| PyDict (entries : gmap string loc)
| PyVectors (a : ndarray R)
| PyScores (a : ndarray npfloat).

Abbreviation heap := (gmap loc pyobj) (only parsing).

(** A statement starts in a heap and ends in one, with a value or with an
    exception. *)
Definition st (A : Type) : Type := heap → result A * heap.

Definition ret {A} (a : A) : st A := λ h, (Ok a, h).

Definition lift {A} (r : result A) : st A := λ h, (r, h).

Definition bind_st {A B} (m : st A) (k : A → st B) : st B :=
  λ h, match m h with
       | (Ok a, h') => k a h'
       | (Raise e, h') => (Raise e, h')
       end.

Notation "'let!' x ':=' m 'in' k" := (bind_st m (λ x, k))
  (at level 10, x name, m at level 100, k at level 200).

(** A new object gets a location that is not in use. *)
Definition alloc (o : pyobj) : st loc :=
  λ h, let l := fresh (dom h) in (Ok l, <[l := o]> h).

Definition store (l : loc) (o : pyobj) : st unit := λ h, (Ok tt, <[l := o]> h).

(** Reading an object as a list, a dict or an array; an object of another
    kind has no such reading. *)
Definition load_list (l : loc) : st (list string) :=
  λ h, match h !! l with
       | Some (PyList items) => (Ok items, h)
       | _ => (Raise TypeError, h)
       end.

Definition load_dict (l : loc) : st (gmap string loc) :=
  λ h, match h !! l with
       | Some (PyDict entries) => (Ok entries, h)
       | _ => (Raise TypeError, h)
       end.

Definition load_vectors (l : loc) : st (ndarray R) :=
  λ h, match h !! l with
       | Some (PyVectors a) => (Ok a, h)
       | _ => (Raise TypeError, h)
       end.

Definition load_scores (l : loc) : st (ndarray npfloat) :=
  λ h, match h !! l with
       | Some (PyScores a) => (Ok a, h)
       | _ => (Raise TypeError, h)
       end.

(** [feedback.get(key, [])]: the default is built before the call. *)
Definition dict_get (d : loc) (key : string) : st loc :=
  let! fallback := alloc (PyList []) in
  let! entries := load_dict d in
  ret (default fallback (entries !! key)).

(** [a[i] *= c], in place. *)
Definition imul_st (c : R) (i : nat) (a : loc) : st unit :=
  let! sims := load_scores a in
  let! sims := lift (imul_at c i sims) in
  store a (PyScores sims).

(** [path.append(x)] and [path.extend(l)], in place. *)
Definition extend_st (path : loc) (items : list string) : st unit :=
  let! old := load_list path in
  store path (PyList (old ++ items)).

(** [generate_learning_path], lines 31 to 38. *)
Definition generate_learning_path_st (current_skills recommended_skills : loc) : st loc :=
  let! path := alloc (PyList ["Foundation Skills"]) in
  let! current := load_list current_skills in
  let! _ := (if decide (2 < length current)
             then extend_st path ["Intermediate Topics"] else ret tt) in
  let! recommended := load_list recommended_skills in
  let! head := alloc (PyList (take 3 recommended)) in
  let! items := load_list head in
  let! _ := extend_st path items in
  let! _ := extend_st path ["Advanced Mastery"] in
  ret path.

(** The three lists of the dict that [get_recommendations] returns. *)
Record recommendation_refs := {
  recommended_skills_ref : loc;
  recommended_users_ref : loc;
  learning_path_ref : loc
}.

Section Service.

(** [encode_skills] gets a list and returns an array; what else it does
    to the heap is up to it. *)
Variable encode_skills_st : loc → st loc.
Variable np_argsort1 : list npfloat → list nat.

(** Line 9. *)
Definition similarities_st (user_vector skill_vectors : loc) : st loc :=
  let! u := load_vectors user_vector in
  let! m := load_vectors skill_vectors in
  let! dots := lift (np_dot m (np_T u)) in
  let! norms := lift (np_linalg_norm_axis1 m) in
  let w := (λ x, (x * np_linalg_norm u)%R) <$> norms in
  let! q := lift (np_divide dots w) in
  alloc (PyScores q).

(** The body of the loop of lines 13 to 17, for index [i]. *)
Definition feedback_step_st (feedback similarities : loc) (i : nat) (skill : string)
  : st unit :=
  let! liked := dict_get feedback "liked" in
  let! items := load_list liked in
  let! _ := (if decide (skill ∈ items) then imul_st 1.2 i similarities else ret tt) in
  let! disliked := dict_get feedback "disliked" in
  let! items := load_list disliked in
  if decide (skill ∈ items) then imul_st 0.8 i similarities else ret tt.

(** The loop writes to arrays only, so it runs over the list as it is at
    entry. *)
Fixpoint feedback_loop_st (feedback similarities : loc) (i : nat) (skills : list string)
  : st unit :=
  match skills with
  | [] => ret tt
  | skill :: skills =>
      let! _ := feedback_step_st feedback similarities i skill in
      feedback_loop_st feedback similarities (S i) skills
  end.

(** Lines 12 to 17. *)
Definition adjust_st (feedback : option loc) (all_skills similarities : loc) : st unit :=
  match feedback with
  | Some d =>
      let! entries := load_dict d in
      if decide (entries = ∅) then ret tt
      else
        let! skills := load_list all_skills in
        feedback_loop_st d similarities 0 skills
  | None => ret tt
  end.

(** Line 21. *)
Definition pick_st (all_skills : loc) (indices : ndarray nat) : st loc :=
  let! skills := load_list all_skills in
  let! names := lift (pick skills indices) in
  alloc (PyList names).

Definition get_recommendations_st (user_skills all_skills user_exchanges : loc)
    (feedback : option loc) : st recommendation_refs :=
  let! user_vector := encode_skills_st user_skills in
  let! skill_vectors := encode_skills_st all_skills in
  let! similarities := similarities_st user_vector skill_vectors in
  let! _ := adjust_st feedback all_skills similarities in
  let! sims := load_scores similarities in
  let! top := lift (top_indices np_argsort1 sims) in
  let! recommended_skills := pick_st all_skills top in
  let! recommended_users := alloc (PyList []) in
  let! learning_path := generate_learning_path_st user_skills recommended_skills in
  ret {| recommended_skills_ref := recommended_skills;
         recommended_users_ref := recommended_users;
         learning_path_ref := learning_path |}.

End Service.

(** What a heap holds at the arguments of a call. *)
Definition holds_dict (h : heap) (d : loc) (feedback : gmap string (list string)) : Prop :=
  ∃ entries,
    h !! d = Some (PyDict entries)
    ∧ ∀ key, option_Forall2 (λ l items, h !! l = Some (PyList items))
               (entries !! key) (feedback !! key).

Definition holds_feedback (h : heap) (d : option loc)
    (feedback : option (gmap string (list string))) : Prop :=
  option_Forall2 (holds_dict h) d feedback.

Record holds_arguments (h : heap)
    (user_skills all_skills user_exchanges : loc) (feedback : option loc)
    (user_skills_v all_skills_v user_exchanges_v : list string)
    (feedback_v : option (gmap string (list string))) : Prop := {
  holds_user_skills : h !! user_skills = Some (PyList user_skills_v);
  holds_all_skills : h !! all_skills = Some (PyList all_skills_v);
  holds_user_exchanges : h !! user_exchanges = Some (PyList user_exchanges_v);
  holds_the_feedback : holds_feedback h feedback feedback_v
}.

(** The result of a call as the caller reads it off the heap; the service
    only ever makes the empty list of users. *)
Definition load_recommendation (h : heap) (refs : recommendation_refs)
  : option recommendation :=
  match h !! recommended_skills_ref refs,
        h !! recommended_users_ref refs,
        h !! learning_path_ref refs with
  | Some (PyList skills), Some (PyList []), Some (PyList path) =>
      Some {| recommended_skills := skills;
              recommended_users := [];
              learning_path := path |}
  | _, _, _ => None
  end.

Definition outcome (run : result recommendation_refs * heap)
  : option (result recommendation) :=
  match run.1 with
  | Ok refs => Ok <$> load_recommendation run.2 refs
  | Raise e => Some (Raise e)
  end.

(** Modelled from the spec: [encode_skills] of [model.py], which is not
    among the sources.  The spec asks that the mapping from names to
    vectors is deterministic and pure: a call returns an array that holds
    what the names alone determine, and changes no object that exists. *)
Definition pure_encoder (encode_skills_st : loc → st loc)
    (encode_skills : list string → ndarray R) : Prop :=
  ∀ h l names, h !! l = Some (PyList names) →
    ∃ a h', encode_skills_st l h = (Ok a, h')
      ∧ h ⊆ h'
      ∧ h' !! a = Some (PyVectors (encode_skills names)).

(** An encoder that reads the names and allocates its array. *)
Definition allocating_encoder (encode_skills : list string → ndarray R) (l : loc)
  : st loc :=
  let! names := load_list l in
  alloc (PyVectors (encode_skills names)).

(** An encoder that is not pure: it also records the call in the list it
    was given. *)
Definition recording_encoder (encode_skills : list string → ndarray R) (l : loc)
  : st loc :=
  let! names := load_list l in
  let! _ := store l (PyList (names ++ ["seen"])) in
  alloc (PyVectors (encode_skills names)).

(** Two heaps that hold the same arguments at different places.  In the
    second, one list is both [user_skills] and the liked names, and there
    is an object the call has nothing to do with. *)
Definition first_heap : heap :=
  <[0 := PyList ["python"]]>
  (<[1 := PyList languages]>
  (<[2 := PyList []]>
  (<[3 := PyDict (<["liked" := 4]> {["disliked" := 5]})]>
  (<[4 := PyList ["python"]]>
  {[5 := PyList ["java"]]})))).

Definition second_heap : heap :=
  <[7 := PyList ["java"]]>
  (<[2 := PyList ["python"]]>
  (<[9 := PyDict (<["liked" := 2]> {["disliked" := 7]})]>
  (<[4 := PyList languages]>
  (<[0 := PyList []]>
  {[1 := PyList ["cobol"]]})))).

(** [wp m h Q]: run from [h], the statement [m] ends in an outcome and a
    heap that satisfy [Q]. *)
Definition wp {A} (m : st A) (h : heap) (Q : result A → heap → Prop) : Prop :=
  Q (m h).1 (m h).2.

(** The outcome [r] of a statement is that of its pure counterpart: the
    same exception, or values related by [R]. *)
Definition agrees {A B} (pure : result B) (R : A → B → Prop) (r : result A) : Prop :=
  match r, pure with
  | Ok a, Ok b => R a b
  | Raise e, Raise e' => e = e'
  | _, _ => False
  end.

(** Line 9 on two arrays, as a value. *)
Definition quotient (u m : ndarray R) : result (ndarray npfloat) :=
  let* dots := np_dot m (np_T u) in
  let* norms := np_linalg_norm_axis1 m in
  np_divide dots ((λ x, (x * np_linalg_norm u)%R) <$> norms).

(** * Properties *)

(** ** The error monad *)

Lemma bind_Ok {A B} (m : result A) (f : A → result B) (b : B) :
  bind m f = Ok b ↔ ∃ a, m = Ok a ∧ f a = Ok b.
Proof.
  destruct m as [a|e]; simpl; split.
  - intros H. by exists a.
  - by intros (a' & [= <-] & H).
  - intros [=].
  - by intros (a' & [=] & _).
Qed.

Ltac inv_bind H :=
  repeat match type of H with
  | bind _ _ = Ok _ =>
      let a := fresh "a" in
      let Ha := fresh "H" a in
      apply bind_Ok in H as (a & Ha & H)
  end.

Lemma comprehension_Ok {A B} (f : A → result B) (l : list A) (k : list B) :
  comprehension f l = Ok k ↔ Forall2 (λ x y, f x = Ok y) l k.
Proof.
  revert k. induction l as [|x l IH]; intros k; simpl.
  - split; [intros [= <-]; constructor | by inversion 1].
  - rewrite bind_Ok. split.
    + intros (y & Hy & H). apply bind_Ok in H as (k' & Hk' & [= <-]).
      constructor; [done | by apply IH].
    + inversion 1 as [|? y ? k' Hy Hk']; subst. exists y. split; [done |].
      apply IH in Hk'. by rewrite Hk'.
Qed.

(** ** The sort order *)

#[global] Instance np_le_trans : Transitive np_le.
Proof. intros [x| | |] [y| | |] [z| | |]; simpl; try done. lra. Qed.

#[global] Instance np_le_total : Total np_le.
Proof. intros [x| | |] [y| | |]; simpl; try tauto. lra. Qed.

#[global] Instance key_le_trans v : Transitive (key_le v).
Proof. intros i j k. unfold key_le. apply np_le_trans. Qed.

#[global] Instance key_le_total v : Total (key_le v).
Proof. intros i j. unfold key_le. apply np_le_total. Qed.

Lemma insert_index_Permutation v i sorted : insert_index v i sorted ≡ₚ i :: sorted.
Proof.
  induction sorted as [|j rest IH]; simpl; [done |].
  case_decide; [done |]. by rewrite IH, Permutation_swap.
Qed.

Lemma insert_index_sorted v i sorted :
  StronglySorted (key_le v) sorted → StronglySorted (key_le v) (insert_index v i sorted).
Proof.
  induction 1 as [|j rest Hrest IH Hj]; simpl; [by repeat constructor |].
  case_decide as Hij.
  - constructor; [by constructor |]. constructor; [done |].
    eapply Forall_impl; [exact Hj |]. intros k Hjk. by trans j.
  - constructor; [done |]. rewrite insert_index_Permutation.
    constructor; [| done]. by destruct (total (key_le v) i j).
Qed.

Lemma stable_argsort_spec : argsort_spec stable_argsort.
Proof.
  intros v. unfold stable_argsort. generalize (seq 0 (length v)) as idxs.
  induction idxs as [|i idxs [IHp IHs]]; simpl.
  - split; [done | constructor].
  - split; [by rewrite insert_index_Permutation, IHp | by apply insert_index_sorted].
Qed.

(** ** Ranking: the last five of an ascending order, reversed *)

Lemma StronglySorted_reverse {A} (R : relation A) (l : list A) :
  StronglySorted R l → StronglySorted (flip R) (reverse l).
Proof.
  induction 1 as [|x l Hl IH Hx]; [constructor |].
  rewrite reverse_cons. apply StronglySorted_app_2; [| done | repeat constructor].
  intros y z Hy Hz. rewrite elem_of_reverse in Hy.
  apply list_elem_of_singleton in Hz as ->. unfold flip.
  rewrite Forall_forall in Hx. by apply Hx.
Qed.

Lemma last5_length {A} (l : list A) : length (last5 l) = length l `min` 5.
Proof. unfold last5. rewrite length_drop. lia. Qed.

Lemma last5_split {A} (l : list A) : l = take (length l - 5) l ++ last5 l.
Proof. unfold last5. by rewrite take_drop. Qed.

Section Ranking.

Context (sort : list npfloat → list nat) (Hsort : argsort_spec sort).
Context (v : list npfloat).

Lemma sort_length : length (sort v) = length v.
Proof. destruct (Hsort v) as [Hp _]. by rewrite Hp, length_seq. Qed.

Lemma sort_elem_of i : i ∈ sort v ↔ i < length v.
Proof.
  destruct (Hsort v) as [Hp _]. rewrite Hp, elem_of_seq. lia.
Qed.

Lemma sort_NoDup : NoDup (sort v).
Proof. destruct (Hsort v) as [Hp _]. rewrite Hp. apply NoDup_seq. Qed.

Lemma ranked_length : length (ranked sort v) = length v `min` 5.
Proof. unfold ranked. by rewrite length_reverse, last5_length, sort_length. Qed.

Lemma ranked_elem_of i : i ∈ ranked sort v → i < length v.
Proof.
  unfold ranked. rewrite elem_of_reverse. intros Hi.
  apply sort_elem_of. rewrite (last5_split (sort v)).
  apply elem_of_app. by right.
Qed.

Lemma ranked_NoDup : NoDup (ranked sort v).
Proof.
  unfold ranked. rewrite reverse_Permutation.
  pose proof sort_NoDup as Hn. rewrite (last5_split (sort v)) in Hn.
  by apply NoDup_app in Hn as (_ & _ & Hn).
Qed.

Lemma ranked_descending : StronglySorted (flip (key_le v)) (ranked sort v).
Proof.
  unfold ranked. apply StronglySorted_reverse.
  destruct (Hsort v) as [_ Hs]. rewrite (last5_split (sort v)) in Hs.
  by apply StronglySorted_app_1_r in Hs.
Qed.

Lemma ranked_top i j :
  i ∈ ranked sort v → j < length v → j ∉ ranked sort v → key_le v j i.
Proof.
  unfold ranked. rewrite !elem_of_reverse. intros Hi Hj Hnj.
  destruct (Hsort v) as [_ Hs]. rewrite (last5_split (sort v)) in Hs.
  apply (StronglySorted_app_1_elem_of _ _ _ _ _ Hs); [| done].
  apply sort_elem_of in Hj. rewrite (last5_split (sort v)) in Hj.
  by apply elem_of_app in Hj as [Hj|Hj].
Qed.

End Ranking.

(** ** The scorer on a vector of scores *)

Section Scorer_facts.

Context (encode_skills : list string → ndarray R).
Context (sort : list npfloat → list nat).

Lemma similarities_vector user_skills all_skills u cols rows :
  encode_skills user_skills = Arr1 u →
  encode_skills all_skills = Arr2 cols rows →
  cols = length u →
  similarities encode_skills user_skills all_skills = Ok (Arr1 (cosine u <$> rows)).
Proof.
  intros Hu Hs ->. unfold similarities, divisors. rewrite Hu, Hs. simpl.
  rewrite decide_True by done. simpl.
  rewrite decide_True by (by rewrite !length_fmap). do 2 f_equal.
  rewrite zip_with_fmap_l, <- list_fmap_compose, zip_with_fmap_r, zip_with_diag.
  done.
Qed.

Lemma imul_at_middle c (pre : list npfloat) x post :
  imul_at c (length pre) (Arr1 (pre ++ x :: post))
  = Ok (Arr1 (pre ++ np_multiply x c :: post)).
Proof.
  unfold imul_at. rewrite decide_True by (rewrite length_app; simpl; lia).
  do 2 f_equal. replace (length pre) with (length pre + 0) by lia.
  by rewrite alter_app_r.
Qed.

Lemma feedback_step_middle fb skill (pre : list npfloat) x post :
  feedback_step fb (length pre) skill (Arr1 (pre ++ x :: post))
  = Ok (Arr1 (pre ++ adjusted_score fb skill x :: post)).
Proof.
  unfold feedback_step, adjusted_score.
  destruct (decide (skill ∈ feedback_get fb "liked")),
    (decide (skill ∈ feedback_get fb "disliked"));
    by repeat (rewrite ?imul_at_middle; cbn [bind]).
Qed.

Lemma feedback_loop_middle fb skills : ∀ (pre v : list npfloat),
  length skills ≤ length v →
  feedback_loop fb (length pre) skills (Arr1 (pre ++ v))
  = Ok (Arr1 (pre ++ zip_with (adjusted_score fb) skills v ++ drop (length skills) v)).
Proof.
  induction skills as [|skill skills IH]; intros pre v Hlen; simpl.
  - by rewrite drop_0.
  - destruct v as [|x v]; simpl in Hlen; [lia |].
    rewrite feedback_step_middle. simpl.
    specialize (IH (pre ++ [adjusted_score fb skill x]) v).
    rewrite length_app in IH. simpl in IH.
    replace (length pre + 1) with (S (length pre)) in IH by lia.
    rewrite <- !(assoc_L (++)) in IH. simpl in IH. rewrite IH by lia. done.
Qed.

Lemma adjust_vector feedback all_skills (base : list npfloat) :
  length base = length all_skills →
  adjust feedback all_skills (Arr1 base)
  = Ok (Arr1 (final_scores feedback all_skills base)).
Proof.
  intros Hlen. unfold adjust, final_scores.
  destruct feedback as [fb|]; [| done]. case_decide; [done |].
  pose proof (feedback_loop_middle fb all_skills [] base) as Hloop. simpl in Hloop.
  rewrite Hloop by lia. rewrite drop_ge by lia. by rewrite app_nil_r.
Qed.

Lemma final_scores_length feedback all_skills (base : list npfloat) :
  length base = length all_skills →
  length (final_scores feedback all_skills base) = length all_skills.
Proof.
  intros Hlen. unfold final_scores. destruct feedback as [fb|]; [| done].
  case_decide; [done |]. rewrite length_zip_with. lia.
Qed.

Lemma pick_vector (all_skills : list string) (idxs : list nat) :
  Forall (λ i, i < length all_skills) idxs →
  ∃ names, pick all_skills (Arr1 idxs) = Ok names
           ∧ Forall2 (λ i s, all_skills !! i = Some s) idxs names.
Proof.
  intros Hin. simpl.
  assert (∃ names, Forall2 (λ i s, all_skills !! i = Some s) idxs names)
    as [names Hnames].
  { induction Hin as [|i idxs Hi _ [names IH]]; [by exists [] |].
    destruct (lookup_lt_is_Some_2 all_skills i Hi) as [s Hs].
    exists (s :: names). by constructor. }
  exists names. split; [| done]. apply comprehension_Ok.
  eapply Forall2_impl; [done |]. intros i s Hs. unfold list_getitem. by rewrite Hs.
Qed.

(** The whole function on the path where line 9 gives one score per
    catalog entry. *)
Lemma get_recommendations_vector user_skills all_skills user_exchanges feedback base :
  argsort_spec sort →
  similarities encode_skills user_skills all_skills = Ok (Arr1 base) →
  length base = length all_skills →
  ∃ names,
    get_recommendations encode_skills sort user_skills all_skills user_exchanges feedback
    = Ok {| recommended_skills := names;
            recommended_users := [];
            learning_path := generate_learning_path user_skills names |}
    ∧ Forall2 (λ i s, all_skills !! i = Some s)
        (ranked sort (final_scores feedback all_skills base)) names.
Proof.
  intros Hsort Hsim Hlen.
  destruct (pick_vector all_skills (ranked sort (final_scores feedback all_skills base)))
    as (names & Hpick & Hnames).
  { apply Forall_forall. intros i Hi. apply ranked_elem_of in Hi; [| done].
    by rewrite final_scores_length in Hi. }
  exists names. split; [| done].
  unfold get_recommendations, top_indices. rewrite Hsim. cbn [bind].
  rewrite adjust_vector by done. cbn [bind np_argsort np_last5 np_reversed].
  unfold ranked in Hpick. by rewrite Hpick.
Qed.

End Scorer_facts.

(** ** Feedback, entry by entry *)

Lemma bind_Ok_r {A} (m : result A) : bind m Ok = m.
Proof. by destruct m. Qed.

Lemma feedback_get_empty key : feedback_get ∅ key = [].
Proof. unfold feedback_get. by rewrite lookup_empty. Qed.

Lemma adjusted_score_untouched fb skill x :
  skill ∉ feedback_get fb "liked" → skill ∉ feedback_get fb "disliked" →
  adjusted_score fb skill x = x.
Proof. intros Hl Hd. unfold adjusted_score. by rewrite !decide_False. Qed.

Lemma adjusted_score_finite fb skill (r : R) :
  ∃ r', adjusted_score fb skill (Finite r) = Finite r'.
Proof. unfold adjusted_score. repeat case_decide; simpl; eauto. Qed.

Lemma final_scores_lookup fb all_skills (base : list npfloat) i skill :
  all_skills !! i = Some skill →
  final_scores (Some fb) all_skills base !! i = adjusted_score fb skill <$> base !! i.
Proof.
  intros Hs. unfold final_scores. case_decide as Hfb.
  - subst fb. destruct (base !! i) as [x|]; [| done]. simpl.
    rewrite adjusted_score_untouched; [done | |];
      rewrite feedback_get_empty; apply not_elem_of_nil.
  - rewrite lookup_zip_with, Hs. simpl. by destruct (base !! i).
Qed.

Lemma final_scores_finite feedback all_skills (base : list R) :
  length base = length all_skills →
  ∃ scores, final_scores feedback all_skills (Finite <$> base) = Finite <$> scores
            ∧ length scores = length all_skills.
Proof.
  intros Hlen. unfold final_scores. destruct feedback as [fb|]; [| by eauto].
  case_decide; [by eauto |]. clear -Hlen.
  revert all_skills Hlen. induction base as [|r base IH]; intros [|skill skills] Hlen;
    simpl in Hlen; try lia.
  - by exists [].
  - destruct (IH skills) as (scores & Heq & Hs); [lia |].
    destruct (adjusted_score_finite fb skill r) as [r' Hr'].
    exists (r' :: scores). csimpl. rewrite Heq, Hr'. split; [done | lia].
Qed.

Section Pre_rank.

Context (encode_skills : list string → ndarray R).

Lemma pre_rank_scores_None user_skills all_skills :
  pre_rank_scores encode_skills user_skills all_skills None
  = similarities encode_skills user_skills all_skills.
Proof. unfold pre_rank_scores. simpl. apply bind_Ok_r. Qed.

Lemma pre_rank_scores_vector user_skills all_skills feedback base :
  similarities encode_skills user_skills all_skills = Ok (Arr1 base) →
  length base = length all_skills →
  pre_rank_scores encode_skills user_skills all_skills feedback
  = Ok (Arr1 (final_scores feedback all_skills base)).
Proof.
  intros Hsim Hlen. unfold pre_rank_scores. rewrite Hsim. cbn [bind].
  by apply adjust_vector.
Qed.

Lemma get_recommendations_pre_rank user_skills all_skills user_exchanges feedback
    (sort : list npfloat → list nat) :
  get_recommendations encode_skills sort user_skills all_skills user_exchanges feedback
  = (let* sims := pre_rank_scores encode_skills user_skills all_skills feedback in
     let* top := top_indices sort sims in
     let* recommended_skills := pick all_skills top in
     Ok {| recommended_skills := recommended_skills;
           recommended_users := [];
           learning_path := generate_learning_path user_skills recommended_skills |}).
Proof.
  unfold get_recommendations, pre_rank_scores.
  by destruct (similarities encode_skills user_skills all_skills).
Qed.

End Pre_rank.

(** ** Ranking *)

Lemma StronglySorted_weaken {A} (R R' : relation A) (l : list A) :
  (∀ x y, R x y → R' x y) → StronglySorted R l → StronglySorted R' l.
Proof.
  intros HR. induction 1 as [|x l _ IH Hx]; constructor; [done |].
  eapply Forall_impl; eauto.
Qed.

Lemma key_Finite (scores : list R) i x :
  scores !! i = Some x → key (Finite <$> scores) i = Finite x.
Proof. intros Hx. unfold key. by rewrite list_lookup_fmap, Hx. Qed.

Lemma key_le_score_ge (scores : list R) i j :
  key_le (Finite <$> scores) j i → score_ge scores i j.
Proof.
  intros Hle x y Hx Hy. unfold key_le in Hle.
  by rewrite (key_Finite _ _ _ Hx), (key_Finite _ _ _ Hy) in Hle.
Qed.

(** C1.  When line 9 gives every catalog entry a real score, the call
    returns, and [recommended_skills] lists the catalog entries at indices
    [idxs], which are distinct, [min(5, len(all_skills))] many, in
    descending order of final (feedback-adjusted) score, and such that no
    entry left out has a higher final score than an entry listed.  Neither
    list needs to be non-empty for this. *)
Theorem top_five_by_descending_score
    (encode_skills : list string → ndarray R) (sort : list npfloat → list nat)
    (user_skills all_skills user_exchanges : list string)
    (feedback : option (gmap string (list string))) (base : list R) :
  argsort_spec sort →
  similarities encode_skills user_skills all_skills = Ok (Arr1 (Finite <$> base)) →
  length base = length all_skills →
  ∃ scores idxs r,
    pre_rank_scores encode_skills user_skills all_skills feedback
    = Ok (Arr1 (Finite <$> scores))
    ∧ get_recommendations encode_skills sort user_skills all_skills user_exchanges feedback
      = Ok r
    ∧ Forall2 (λ i s, all_skills !! i = Some s) idxs (recommended_skills r)
    ∧ NoDup idxs
    ∧ length idxs = 5 `min` length all_skills
    ∧ StronglySorted (score_ge scores) idxs
    ∧ ∀ i j, i ∈ idxs → j ∉ idxs → score_ge scores i j.
Proof.
  intros Hsort Hsim Hlen.
  assert (length (Finite <$> base) = length all_skills) as Hlen'
    by by rewrite length_fmap.
  destruct (final_scores_finite feedback all_skills base Hlen) as (scores & Hfin & Hscores).
  destruct (get_recommendations_vector encode_skills sort user_skills all_skills
              user_exchanges feedback _ Hsort Hsim Hlen') as (names & Hget & Hnames).
  rewrite Hfin in Hnames.
  exists scores, (ranked sort (Finite <$> scores)). eexists.
  split; [| split; [exact Hget |]].
  { rewrite <- Hfin. by apply pre_rank_scores_vector. }
  split; [exact Hnames |]. split; [by apply ranked_NoDup |].
  split; [rewrite ranked_length, length_fmap by done; lia |]. split.
  - eapply StronglySorted_weaken; [| by apply ranked_descending].
    intros i j. unfold flip. apply key_le_score_ge.
  - intros i j Hi Hj. destruct (decide (j < length scores)) as [Hlt|Hge].
    + apply key_le_score_ge. eapply ranked_top; [done | done | | done].
      by rewrite length_fmap.
    + intros x y _ Hy. apply lookup_lt_Some in Hy. lia.
Qed.

(** C2.  When line 9 gives one score per catalog entry (a real number or
    not), the call returns, [recommended_skills] has
    [min(5, len(all_skills))] entries and each of them is an entry of
    [all_skills]. *)
Theorem recommended_skills_length_and_membership
    (encode_skills : list string → ndarray R) (sort : list npfloat → list nat)
    (user_skills all_skills user_exchanges : list string)
    (feedback : option (gmap string (list string))) (base : list npfloat) :
  argsort_spec sort →
  similarities encode_skills user_skills all_skills = Ok (Arr1 base) →
  length base = length all_skills →
  ∃ r,
    get_recommendations encode_skills sort user_skills all_skills user_exchanges feedback
    = Ok r
    ∧ length (recommended_skills r) = 5 `min` length all_skills
    ∧ ∀ s, s ∈ recommended_skills r → s ∈ all_skills.
Proof.
  intros Hsort Hsim Hlen.
  destruct (get_recommendations_vector encode_skills sort user_skills all_skills
              user_exchanges feedback _ Hsort Hsim Hlen) as (names & Hget & Hnames).
  eexists. split; [exact Hget |]. cbn [recommended_skills]. split.
  - rewrite <- (Forall2_length _ _ _ Hnames), ranked_length by done.
    rewrite final_scores_length by done. lia.
  - intros s Hs. apply list_elem_of_lookup in Hs as [k Hk].
    destruct (Forall2_lookup_r _ _ _ _ _ Hnames Hk) as (i & _ & Hi).
    by eapply list_elem_of_lookup_2.
Qed.

(** ** Feedback *)


(** C10.  With feedback, a catalog entry whose name is in neither [liked]
    nor [disliked] keeps the pre-rank score of the same call without
    feedback. *)
Theorem feedback_frame
    (encode_skills : list string → ndarray R)
    (user_skills all_skills : list string)
    (fb : gmap string (list string)) (base : list npfloat) :
  pre_rank_scores encode_skills user_skills all_skills None = Ok (Arr1 base) →
  length base = length all_skills →
  ∃ adjusted,
    pre_rank_scores encode_skills user_skills all_skills (Some fb) = Ok (Arr1 adjusted)
    ∧ ∀ i skill, all_skills !! i = Some skill →
        skill ∉ feedback_get fb "liked" → skill ∉ feedback_get fb "disliked" →
        adjusted !! i = base !! i.
Proof.
  rewrite pre_rank_scores_None. intros Hsim Hlen.
  exists (final_scores (Some fb) all_skills base).
  split; [by apply pre_rank_scores_vector |].
  intros i skill Hs Hl Hd. rewrite (final_scores_lookup _ _ _ _ _ Hs).
  destruct (base !! i) as [b|]; [| done]. simpl.
  by rewrite adjusted_score_untouched.
Qed.

(** ** The result record *)

Lemma get_recommendations_Ok
    (encode_skills : list string → ndarray R) (sort : list npfloat → list nat)
    (user_skills all_skills user_exchanges : list string)
    (feedback : option (gmap string (list string))) (r : recommendation) :
  get_recommendations encode_skills sort user_skills all_skills user_exchanges feedback
  = Ok r →
  recommended_users r = []
  ∧ learning_path r = generate_learning_path user_skills (recommended_skills r).
Proof.
  unfold get_recommendations. intros H. inv_bind H. by injection H as <-.
Qed.

Lemma generate_learning_path_layout (current_skills recommended : list string) :
  generate_learning_path current_skills recommended
  = ["Foundation Skills"]
    ++ (if decide (2 < length current_skills) then ["Intermediate Topics"] else [])
    ++ take 3 recommended ++ ["Advanced Mastery"].
Proof.
  unfold generate_learning_path. case_decide; by rewrite <- ?(assoc_L (++)).
Qed.

(** C4.  The learning path of a returned result is "Foundation Skills",
    then "Intermediate Topics" when there are more than two user skills,
    then the first three recommended skills (all of them when there are
    fewer), then "Advanced Mastery"; so it starts with "Foundation Skills"
    and ends with "Advanced Mastery". *)
Theorem learning_path_layout
    (encode_skills : list string → ndarray R) (sort : list npfloat → list nat)
    (user_skills all_skills user_exchanges : list string)
    (feedback : option (gmap string (list string))) (r : recommendation) :
  get_recommendations encode_skills sort user_skills all_skills user_exchanges feedback
  = Ok r →
  learning_path r
  = ["Foundation Skills"]
    ++ (if decide (2 < length user_skills) then ["Intermediate Topics"] else [])
    ++ take 3 (recommended_skills r) ++ ["Advanced Mastery"]
  ∧ head (learning_path r) = Some "Foundation Skills"
  ∧ last (learning_path r) = Some "Advanced Mastery".
Proof.
  intros H. apply get_recommendations_Ok in H as [_ ->].
  rewrite generate_learning_path_layout. split; [done |]. split; [done |].
  by rewrite !app_assoc, last_snoc.
Qed.

(** C5, amended.  The learning path of a returned result contains
    "Intermediate Topics" exactly when there are more than two user skills
    or one of the first three recommended skills has that name. *)
Theorem intermediate_topics_iff
    (encode_skills : list string → ndarray R) (sort : list npfloat → list nat)
    (user_skills all_skills user_exchanges : list string)
    (feedback : option (gmap string (list string))) (r : recommendation) :
  get_recommendations encode_skills sort user_skills all_skills user_exchanges feedback
  = Ok r →
  "Intermediate Topics" ∈ learning_path r
  ↔ 2 < length user_skills ∨ "Intermediate Topics" ∈ take 3 (recommended_skills r).
Proof.
  intros H. apply get_recommendations_Ok in H as [_ ->].
  rewrite generate_learning_path_layout. rewrite !elem_of_app.
  rewrite !list_elem_of_singleton. case_decide as Hlen.
  - split; [by left |]. intros _. right. left. by apply list_elem_of_singleton.
  - rewrite elem_of_nil. split.
    + intros [Hf|[[]|[Hr|Ha]]]; [done | by right | done].
    + intros [Hlt|Hr]; [done |]. right. right. by left.
Qed.

(** C7.  [recommended_users] of a returned result is empty. *)
Theorem recommended_users_empty
    (encode_skills : list string → ndarray R) (sort : list npfloat → list nat)
    (user_skills all_skills user_exchanges : list string)
    (feedback : option (gmap string (list string))) (r : recommendation) :
  get_recommendations encode_skills sort user_skills all_skills user_exchanges feedback
  = Ok r →
  recommended_users r = [].
Proof. intros H. by apply get_recommendations_Ok in H as [-> _]. Qed.

(** ** The service on Python's objects

    A weakest-precondition calculus for the statements, and what each
    part of the service does to the heap. *)

Lemma wp_mono {A} (m : st A) h (Q Q' : result A → heap → Prop) :
  wp m h Q → (∀ r h', Q r h' → Q' r h') → wp m h Q'.
Proof. unfold wp. auto. Qed.

Lemma wp_bind {A B} (m : st A) (k : A → st B) h (Q : result B → heap → Prop) :
  wp m h (λ r h', match r with
                  | Ok a => wp (k a) h' Q
                  | Raise e => Q (Raise e) h'
                  end) →
  wp (bind_st m k) h Q.
Proof. unfold wp, bind_st. by destruct (m h) as [[a|e] h']. Qed.

Lemma wp_ret {A} (a : A) h (Q : result A → heap → Prop) : Q (Ok a) h → wp (ret a) h Q.
Proof. done. Qed.

Lemma wp_lift {A} (r : result A) h (Q : result A → heap → Prop) : Q r h → wp (lift r) h Q.
Proof. done. Qed.

Lemma fresh_unused (h : heap) : h !! fresh (dom h) = None.
Proof. apply not_elem_of_dom, is_fresh. Qed.

Lemma wp_alloc o h (Q : result loc → heap → Prop) :
  (∀ l, h !! l = None → Q (Ok l) (<[l := o]> h)) → wp (alloc o) h Q.
Proof. intros HQ. apply HQ, fresh_unused. Qed.

Lemma wp_store l o h (Q : result unit → heap → Prop) :
  Q (Ok tt) (<[l := o]> h) → wp (store l o) h Q.
Proof. done. Qed.

Lemma wp_load_list l items h (Q : result (list string) → heap → Prop) :
  h !! l = Some (PyList items) → Q (Ok items) h → wp (load_list l) h Q.
Proof. intros Hl HQ. unfold wp, load_list. by rewrite Hl. Qed.

Lemma wp_load_dict l entries h (Q : result (gmap string loc) → heap → Prop) :
  h !! l = Some (PyDict entries) → Q (Ok entries) h → wp (load_dict l) h Q.
Proof. intros Hl HQ. unfold wp, load_dict. by rewrite Hl. Qed.

Lemma wp_load_vectors l a h (Q : result (ndarray R) → heap → Prop) :
  h !! l = Some (PyVectors a) → Q (Ok a) h → wp (load_vectors l) h Q.
Proof. intros Hl HQ. unfold wp, load_vectors. by rewrite Hl. Qed.

Lemma wp_load_scores l a h (Q : result (ndarray npfloat) → heap → Prop) :
  h !! l = Some (PyScores a) → Q (Ok a) h → wp (load_scores l) h Q.
Proof. intros Hl HQ. unfold wp, load_scores. by rewrite Hl. Qed.

(** A larger heap holds what a smaller one holds. *)
Lemma holds_dict_weaken h h' d feedback :
  h ⊆ h' → holds_dict h d feedback → holds_dict h' d feedback.
Proof.
  intros Hsub (entries & Hd & Hkeys). exists entries.
  split; [by eapply lookup_weaken |].
  intros key. destruct (Hkeys key) as [l items Hl|]; constructor.
  by eapply lookup_weaken.
Qed.

Lemma holds_dict_empty h d feedback entries :
  holds_dict h d feedback → h !! d = Some (PyDict entries) →
  entries = ∅ ↔ feedback = ∅.
Proof.
  intros (entries' & Hd & Hkeys) Hd'. assert (entries' = entries) as -> by congruence.
  rewrite !map_empty. split; intros Hnone key; specialize (Hkeys key);
    specialize (Hnone key); inversion Hkeys; congruence.
Qed.

Lemma wp_dict_get h d feedback key :
  holds_dict h d feedback →
  wp (dict_get d key) h
    (λ r h', ∃ l, r = Ok l ∧ h ⊆ h' ∧ h' !! l = Some (PyList (feedback_get feedback key))).
Proof.
  intros (entries & Hd & Hkeys). unfold dict_get.
  apply wp_bind, wp_alloc. intros fallback Hfresh.
  assert (h ⊆ <[fallback := PyList []]> h) as Hsub by by apply insert_subseteq.
  apply wp_bind, (wp_load_dict _ entries); [by eapply lookup_weaken |].
  apply wp_ret. eexists. split; [done |]. split; [done |].
  unfold feedback_get. destruct (Hkeys key) as [l items Hl|]; simpl.
  - by eapply lookup_weaken.
  - apply lookup_insert_eq.
Qed.

Lemma wp_imul_st h s cur c i :
  h !! s = Some (PyScores cur) →
  wp (imul_st c i s) h
    (λ r h', match imul_at c i cur with
             | Ok cur' => r = Ok tt ∧ h' = <[s := PyScores cur']> h
             | Raise e => r = Raise e ∧ h' = h
             end).
Proof.
  intros Hs. unfold imul_st. apply wp_bind, (wp_load_scores _ cur); [done |].
  apply wp_bind, wp_lift. destruct (imul_at c i cur) as [cur'|e]; [| done].
  by apply wp_store.
Qed.

(** One conditional product of the loop: the array at [s], which the
    heap [h0] of the call does not have, is the only object written. *)
Lemma wp_conditional_imul (P : Prop) `{!Decision P} h0 h s cur c i :
  h0 ⊆ h → h0 !! s = None → h !! s = Some (PyScores cur) →
  wp (if decide P then imul_st c i s else ret tt) h
    (λ r h', h0 ⊆ h'
       ∧ agrees (if decide P then imul_at c i cur else Ok cur)
           (λ _ cur', h' !! s = Some (PyScores cur')) r).
Proof.
  intros Hsub Hnew Hs. destruct (decide P); [| by apply wp_ret].
  eapply wp_mono; [by apply wp_imul_st |]. intros r h'. simpl.
  destruct (imul_at c i cur) as [cur'|e]; intros [-> ->]; simpl.
  - split; [by apply insert_subseteq_r | apply lookup_insert_eq].
  - done.
Qed.

Section Service_facts.

Variable encode_skills_st : loc → st loc.
Variable encode_skills : list string → ndarray R.
Variable np_argsort1 : list npfloat → list nat.

Lemma wp_feedback_step_st h0 h d feedback s cur i skill :
  holds_dict h0 d feedback → h0 ⊆ h → h0 !! s = None →
  h !! s = Some (PyScores cur) →
  wp (feedback_step_st d s i skill) h
    (λ r h', h0 ⊆ h'
       ∧ agrees (feedback_step feedback i skill cur)
           (λ _ cur', h' !! s = Some (PyScores cur')) r).
Proof.
  intros Hd Hsub Hnew Hs. unfold feedback_step_st, feedback_step.
  apply wp_bind. eapply wp_mono;
    [apply (wp_dict_get h d feedback "liked"); by eapply holds_dict_weaken |].
  intros r h1 (liked & -> & Hsub1 & Hliked).
  apply wp_bind, (wp_load_list _ _ _ _ Hliked).
  apply wp_bind. eapply wp_mono.
  { apply (wp_conditional_imul (skill ∈ feedback_get feedback "liked") h0 h1 s cur);
      [by etrans | done | by eapply lookup_weaken]. }
  intros r h2 [Hsub2 Hr].
  destruct (decide (skill ∈ feedback_get feedback "liked")) as [Hin|Hout];
    cbn [agrees] in Hr.
  - destruct r as [[]|e], (imul_at 1.2 i cur) as [cur1|e1]; cbn [agrees] in Hr; try done;
      cbn [bind]; try (by subst).
    rename Hr into Hs1.
    apply wp_bind. eapply wp_mono;
      [apply (wp_dict_get h2 d feedback "disliked"); by eapply holds_dict_weaken |].
    intros r h3 (disliked & -> & Hsub3 & Hdisliked).
    apply wp_bind, (wp_load_list _ _ _ _ Hdisliked).
    apply (wp_conditional_imul (skill ∈ feedback_get feedback "disliked") h0 h3 s cur1);
      [by etrans | done | by eapply lookup_weaken].
  - destruct r as [[]|e]; cbn [agrees] in Hr; [| done]. cbn [bind].
    apply wp_bind. eapply wp_mono;
      [apply (wp_dict_get h2 d feedback "disliked"); by eapply holds_dict_weaken |].
    intros r h3 (disliked & -> & Hsub3 & Hdisliked).
    apply wp_bind, (wp_load_list _ _ _ _ Hdisliked).
    apply (wp_conditional_imul (skill ∈ feedback_get feedback "disliked") h0 h3 s cur);
      [by etrans | done | by eapply lookup_weaken].
Qed.

Lemma wp_feedback_loop_st h0 d feedback s skills :
  holds_dict h0 d feedback → h0 !! s = None →
  ∀ i h cur, h0 ⊆ h → h !! s = Some (PyScores cur) →
  wp (feedback_loop_st d s i skills) h
    (λ r h', h0 ⊆ h'
       ∧ agrees (feedback_loop feedback i skills cur)
           (λ _ cur', h' !! s = Some (PyScores cur')) r).
Proof.
  intros Hd Hnew. induction skills as [|skill skills IH]; intros i h cur Hsub Hs.
  - by apply wp_ret.
  - cbn [feedback_loop_st feedback_loop]. apply wp_bind. eapply wp_mono;
      [by apply (wp_feedback_step_st h0 h d feedback s cur i skill) |].
    intros r h1 [Hsub1 Hr].
    destruct r as [[]|e], (feedback_step feedback i skill cur) as [cur1|e1];
      cbn [agrees] in Hr; try done; cbn [bind]; try (by subst).
    by apply IH.
Qed.

Lemma wp_adjust_st h0 h d feedback all_skills all_skills_v s cur :
  holds_feedback h0 d feedback → h0 !! all_skills = Some (PyList all_skills_v) →
  h0 ⊆ h → h0 !! s = None → h !! s = Some (PyScores cur) →
  wp (adjust_st d all_skills s) h
    (λ r h', h0 ⊆ h'
       ∧ agrees (adjust feedback all_skills_v cur)
           (λ _ cur', h' !! s = Some (PyScores cur')) r).
Proof.
  intros Hfb Hall Hsub Hnew Hs. unfold adjust_st, adjust.
  destruct Hfb as [d fb Hd|]; [| by apply wp_ret].
  pose proof Hd as (entries & Hentries & _).
  apply wp_bind, (wp_load_dict _ entries); [by eapply lookup_weaken |].
  pose proof (holds_dict_empty h0 d fb entries Hd Hentries) as Hempty.
  destruct (decide (entries = ∅)) as [He|He], (decide (fb = ∅)) as [Hf|Hf];
    try (exfalso; tauto).
  - by apply wp_ret.
  - apply wp_bind, (wp_load_list _ all_skills_v); [by eapply lookup_weaken |].
    by apply wp_feedback_loop_st.
Qed.

Lemma similarities_quotient user_skills all_skills :
  similarities encode_skills user_skills all_skills
  = quotient (encode_skills user_skills) (encode_skills all_skills).
Proof.
  unfold similarities, quotient, divisors.
  destruct (np_dot _ _); [| done]. cbn [bind].
  by destruct (np_linalg_norm_axis1 _).
Qed.

Lemma wp_similarities_st h user_vector skill_vectors u m :
  h !! user_vector = Some (PyVectors u) → h !! skill_vectors = Some (PyVectors m) →
  wp (similarities_st user_vector skill_vectors) h
    (λ r h', h ⊆ h'
       ∧ agrees (quotient u m)
           (λ s q, h !! s = None ∧ h' !! s = Some (PyScores q)) r).
Proof.
  intros Hu Hm. unfold similarities_st, quotient.
  apply wp_bind, (wp_load_vectors _ u); [done |].
  apply wp_bind, (wp_load_vectors _ m); [done |].
  apply wp_bind, wp_lift. destruct (np_dot m (np_T u)) as [dots|e]; [| done].
  apply wp_bind, wp_lift. destruct (np_linalg_norm_axis1 m) as [norms|e]; [| done].
  apply wp_bind, wp_lift. cbn [bind].
  destruct (np_divide dots _) as [q|e]; [| done].
  apply wp_alloc. intros s Hnew. split; [by apply insert_subseteq |].
  simpl. split; [done | apply lookup_insert_eq].
Qed.

Lemma wp_pick_st h all_skills all_skills_v top :
  h !! all_skills = Some (PyList all_skills_v) →
  wp (pick_st all_skills top) h
    (λ r h', h ⊆ h'
       ∧ agrees (pick all_skills_v top) (λ l names, h' !! l = Some (PyList names)) r).
Proof.
  intros Hall. unfold pick_st. apply wp_bind, (wp_load_list _ all_skills_v); [done |].
  apply wp_bind, wp_lift. destruct (pick all_skills_v top) as [names|e]; [| done].
  apply wp_alloc. intros l Hnew. split; [by apply insert_subseteq |].
  apply lookup_insert_eq.
Qed.

Lemma wp_extend_st h0 h path old items :
  h0 ⊆ h → h0 !! path = None → h !! path = Some (PyList old) →
  wp (extend_st path items) h
    (λ r h', r = Ok tt ∧ h0 ⊆ h' ∧ h' !! path = Some (PyList (old ++ items))).
Proof.
  intros Hsub Hnew Hpath. unfold extend_st.
  apply wp_bind, (wp_load_list _ old); [done |]. apply wp_store.
  split; [done |]. split; [by apply insert_subseteq_r | apply lookup_insert_eq].
Qed.

Lemma wp_generate_learning_path_st h current_skills recommended_skills current recommended :
  h !! current_skills = Some (PyList current) →
  h !! recommended_skills = Some (PyList recommended) →
  wp (generate_learning_path_st current_skills recommended_skills) h
    (λ r h', ∃ path, r = Ok path ∧ h ⊆ h'
       ∧ h' !! path = Some (PyList (generate_learning_path current recommended))).
Proof.
  intros Hcur Hrec. unfold generate_learning_path_st, generate_learning_path.
  apply wp_bind, wp_alloc. intros path Hnew.
  assert (h ⊆ <[path := PyList ["Foundation Skills"]]> h) as Hsub
    by by apply insert_subseteq.
  apply wp_bind, (wp_load_list _ current); [by eapply lookup_weaken |].
  apply wp_bind.
  apply (wp_mono _ _ (λ r h1, r = Ok tt ∧ h ⊆ h1
           ∧ h1 !! path
             = Some (PyList (if decide (2 < length current)
                             then ["Foundation Skills"] ++ ["Intermediate Topics"]
                             else ["Foundation Skills"])))).
  { destruct (decide (2 < length current)).
    - apply (wp_extend_st h); [done | done | apply lookup_insert_eq].
    - apply wp_ret. split; [done |]. split; [done | apply lookup_insert_eq]. }
  intros r h1 (-> & Hsub1 & Hpath1).
  apply wp_bind, (wp_load_list _ recommended); [by eapply lookup_weaken |].
  apply wp_bind, wp_alloc. intros head Hhead.
  assert (h1 ⊆ <[head := PyList (take 3 recommended)]> h1) as Hsub2
    by by apply insert_subseteq.
  apply wp_bind, (wp_load_list _ (take 3 recommended)); [apply lookup_insert_eq |].
  apply wp_bind. eapply wp_mono.
  { apply (wp_extend_st h); [by etrans | done | by eapply lookup_weaken]. }
  intros r h3 (-> & Hsub3 & Hpath3).
  apply wp_bind. eapply wp_mono; [by apply (wp_extend_st h) |].
  intros r h4 (-> & Hsub4 & Hpath4).
  apply wp_ret. exists path. by repeat split.
Qed.

Hypothesis encoder_pure : pure_encoder encode_skills_st encode_skills.

Lemma wp_encode_skills_st h l names :
  h !! l = Some (PyList names) →
  wp (encode_skills_st l) h
    (λ r h', ∃ a, r = Ok a ∧ h ⊆ h' ∧ h' !! a = Some (PyVectors (encode_skills names))).
Proof.
  intros Hl. destruct (encoder_pure h l names Hl) as (a & h' & Hrun & Hsub & Ha).
  unfold wp. rewrite Hrun. by exists a.
Qed.

(** The service on the heap does what [get_recommendations] does on the
    values, and leaves every object of the heap it started in as it was. *)
Lemma get_recommendations_st_refines h user_skills all_skills user_exchanges feedback
    user_skills_v all_skills_v user_exchanges_v feedback_v :
  holds_arguments h user_skills all_skills user_exchanges feedback
    user_skills_v all_skills_v user_exchanges_v feedback_v →
  wp (get_recommendations_st encode_skills_st np_argsort1
        user_skills all_skills user_exchanges feedback) h
    (λ r h', h ⊆ h'
       ∧ outcome (r, h')
         = Some (get_recommendations encode_skills np_argsort1
                   user_skills_v all_skills_v user_exchanges_v feedback_v)).
Proof.
  intros [Hus Has _ Hfb]. unfold get_recommendations_st, get_recommendations.
  rewrite similarities_quotient.
  apply wp_bind. eapply wp_mono; [by apply wp_encode_skills_st |].
  intros r h1 (user_vector & -> & Hsub1 & Hu).
  apply wp_bind. eapply wp_mono;
    [apply (wp_encode_skills_st h1 all_skills all_skills_v); by eapply lookup_weaken |].
  intros r h2 (skill_vectors & -> & Hsub2 & Hm).
  assert (h ⊆ h2) as Hsub02 by by etrans.
  apply wp_bind. eapply wp_mono.
  { apply (wp_similarities_st h2 user_vector skill_vectors);
      [by eapply lookup_weaken | done]. }
  intros r h3 [Hsub3 Hr].
  destruct r as [s|e], (quotient _ _) as [q|e1]; cbn [agrees] in Hr; try done;
    cbn [bind]; try (by subst; split; [etrans |]).
  destruct Hr as [Hnew Hs].
  assert (h !! s = None) as Hnew0.
  { destruct (h !! s) as [o|] eqn:Heq; [| done].
    by rewrite (lookup_weaken _ _ _ _ Heq Hsub02) in Hnew. }
  apply wp_bind. eapply wp_mono.
  { apply (wp_adjust_st h h3 feedback feedback_v all_skills all_skills_v s q);
      [done | done | by etrans | done | done]. }
  intros r h4 [Hsub4 Hr].
  destruct r as [[]|e], (adjust feedback_v all_skills_v q) as [cur|e1];
    cbn [agrees] in Hr; try done; cbn [bind]; try (by subst).
  rename Hr into Hcur.
  apply wp_bind, (wp_load_scores _ cur); [done |].
  apply wp_bind, wp_lift.
  destruct (top_indices np_argsort1 cur) as [top|e]; [| done]. cbn [bind].
  apply wp_bind. eapply wp_mono;
    [apply (wp_pick_st h4 all_skills all_skills_v top); by eapply lookup_weaken |].
  intros r h5 [Hsub5 Hr].
  destruct r as [names_l|e], (pick all_skills_v top) as [names|e1];
    cbn [agrees] in Hr; try done; cbn [bind]; try (by subst; split; [etrans |]).
  apply wp_bind, wp_alloc. intros users Husers.
  apply wp_bind. eapply wp_mono.
  { apply (wp_generate_learning_path_st _ user_skills names_l user_skills_v names).
    - eapply lookup_weaken; [exact Hus |]. etrans; [exact Hsub4 |].
      etrans; [exact Hsub5 |]. by apply insert_subseteq.
    - eapply lookup_weaken; [exact Hr |]. by apply insert_subseteq. }
  intros r h7 (path & -> & Hsub7 & Hpath).
  apply wp_ret.
  assert (h5 ⊆ h7) as Hsub57 by (etrans; [by apply insert_subseteq | done]).
  split; [etrans; [exact Hsub4 |]; by etrans |].
  unfold outcome, load_recommendation.
  cbn [fst snd recommended_skills_ref recommended_users_ref learning_path_ref].
  rewrite (lookup_weaken _ _ _ _ Hr Hsub57).
  rewrite (lookup_weaken _ _ users (PyList []) (lookup_insert_eq _ _ _) Hsub7).
  by rewrite Hpath.
Qed.

End Service_facts.

(** ** Two calls with the same arguments *)

Lemma allocating_encoder_pure (encode_skills : list string → ndarray R) :
  pure_encoder (allocating_encoder encode_skills) encode_skills.
Proof.
  intros h l names Hl. unfold allocating_encoder, bind_st, load_list, alloc.
  rewrite Hl. eexists _, _. split; [done |].
  split; [apply insert_subseteq, fresh_unused | apply lookup_insert_eq].
Qed.

(** The hypothesis on the encoder says something: an encoder that writes
    to the list it is given does not meet it. *)
Example recording_encoder_not_pure (encode_skills : list string → ndarray R) :
  ¬ pure_encoder (recording_encoder encode_skills) encode_skills.
Proof.
  intros Hpure.
  destruct (Hpure {[0 := PyList []]} 0 [] (lookup_singleton_eq _ _))
    as (a & h' & Hrun & Hsub & _).
  unfold recording_encoder, bind_st, load_list, store, alloc in Hrun.
  rewrite lookup_singleton_eq in Hrun. injection Hrun as _ <-.
  pose proof (lookup_weaken _ _ 0 (PyList []) (lookup_singleton_eq _ _) Hsub) as Hold.
  rewrite lookup_insert_ne in Hold.
  - by rewrite lookup_insert_eq in Hold.
  - intros Heq.
    pose proof (fresh_unused (<[0 := PyList ["seen"]]> {[0 := PyList []]}))
      as Hnew.
    by rewrite Heq, lookup_insert_eq in Hnew.
Qed.

Lemma holds_dict_liked_disliked (h : heap) d l_liked l_disliked liked disliked :
  h !! d = Some (PyDict (<["liked" := l_liked]> {["disliked" := l_disliked]})) →
  h !! l_liked = Some (PyList liked) →
  h !! l_disliked = Some (PyList disliked) →
  holds_dict h d (<["liked" := liked]> {["disliked" := disliked]}).
Proof.
  intros Hd Hl Hdl. eexists. split; [exact Hd |]. intros key.
  destruct (decide (key = "liked")) as [->|Hk].
  { rewrite !lookup_insert_eq. by constructor. }
  rewrite !(lookup_insert_ne _ "liked") by done.
  destruct (decide (key = "disliked")) as [->|Hk'].
  { rewrite !lookup_singleton_eq. by constructor. }
  rewrite !lookup_singleton_ne by done. constructor.
Qed.

Lemma first_heap_holds :
  holds_arguments first_heap 0 1 2 (Some 3)
    ["python"] languages [] (Some likes_python_dislikes_java).
Proof.
  split; [reflexivity | reflexivity | reflexivity |].
  constructor. by apply (holds_dict_liked_disliked first_heap 3 4 5).
Qed.

Lemma second_heap_holds :
  holds_arguments second_heap 2 4 0 (Some 9)
    ["python"] languages [] (Some likes_python_dislikes_java).
Proof.
  split; [reflexivity | reflexivity | reflexivity |].
  constructor. by apply (holds_dict_liked_disliked second_heap 9 2 7).
Qed.

(** C8.  Two calls whose arguments hold the same [user_skills],
    [all_skills], [user_exchanges] and [feedback] have the same outcome,
    wherever the arguments are and whatever else the two heaps hold: the
    same exception, or results whose three lists are equal.  Neither call
    changes an object that existed before it.  The encoder is taken to be
    deterministic and pure, as the spec asks of it. *)
Theorem get_recommendations_deterministic
    (encode_skills_st : loc → st loc) (encode_skills : list string → ndarray R)
    (sort : list npfloat → list nat)
    (h1 h2 : heap)
    (user_skills1 all_skills1 user_exchanges1 : loc) (feedback1 : option loc)
    (user_skills2 all_skills2 user_exchanges2 : loc) (feedback2 : option loc)
    (user_skills all_skills user_exchanges : list string)
    (feedback : option (gmap string (list string))) :
  pure_encoder encode_skills_st encode_skills →
  holds_arguments h1 user_skills1 all_skills1 user_exchanges1 feedback1
    user_skills all_skills user_exchanges feedback →
  holds_arguments h2 user_skills2 all_skills2 user_exchanges2 feedback2
    user_skills all_skills user_exchanges feedback →
  ∃ out,
    outcome (get_recommendations_st encode_skills_st sort
               user_skills1 all_skills1 user_exchanges1 feedback1 h1)
    = Some out
    ∧ outcome (get_recommendations_st encode_skills_st sort
                 user_skills2 all_skills2 user_exchanges2 feedback2 h2)
      = Some out
    ∧ h1 ⊆ (get_recommendations_st encode_skills_st sort
              user_skills1 all_skills1 user_exchanges1 feedback1 h1).2
    ∧ h2 ⊆ (get_recommendations_st encode_skills_st sort
              user_skills2 all_skills2 user_exchanges2 feedback2 h2).2.
Proof.
  intros Hpure Hargs1 Hargs2.
  exists (get_recommendations encode_skills sort
            user_skills all_skills user_exchanges feedback).
  pose proof (get_recommendations_st_refines encode_skills_st encode_skills sort Hpure
                _ _ _ _ _ _ _ _ _ Hargs1) as [Hframe1 Hout1].
  pose proof (get_recommendations_st_refines encode_skills_st encode_skills sort Hpure
                _ _ _ _ _ _ _ _ _ Hargs2) as [Hframe2 Hout2].
  rewrite <- surjective_pairing in Hout1, Hout2. done.
Qed.

(** ** The argument that is not read *)

(** C9.  Two calls that differ only in [user_exchanges] have the same
    outcome. *)
Theorem user_exchanges_unused
    (encode_skills : list string → ndarray R) (sort : list npfloat → list nat)
    (user_skills all_skills user_exchanges : list string)
    (feedback : option (gmap string (list string)))
    (user_skills' all_skills' user_exchanges' : list string)
    (feedback' : option (gmap string (list string))) :
  user_skills = user_skills' → all_skills = all_skills' → feedback = feedback' →
  get_recommendations encode_skills sort user_skills all_skills user_exchanges feedback
  = get_recommendations encode_skills sort user_skills' all_skills' user_exchanges' feedback'.
Proof. intros <- <- <-. unfold get_recommendations. reflexivity. Qed.

(** ** Zero norms *)

Lemma Rsum_cons (x : R) (v : list R) : Rsum (x :: v) = (x + Rsum v)%R.
Proof. reflexivity. Qed.

Lemma Rsum_squares_nonneg (v : list R) : (0 <= Rsum ((λ x, x * x) <$> v))%R.
Proof.
  induction v as [|x v IH]; [unfold Rsum; simpl; lra |].
  rewrite fmap_cons, Rsum_cons. pose proof (Rle_0_sqr x) as Hx. unfold Rsqr in Hx. lra.
Qed.

Lemma norm2_zero (v : list R) : norm2 v = 0%R → Forall (λ x, x = 0%R) v.
Proof.
  unfold norm2. intros H. apply sqrt_eq_0 in H; [| apply Rsum_squares_nonneg].
  induction v as [|x v IH]; [constructor |].
  rewrite fmap_cons, Rsum_cons in H.
  pose proof (Rsum_squares_nonneg v) as Hv.
  pose proof (Rle_0_sqr x) as Hx. unfold Rsqr in Hx.
  constructor; [| apply IH; lra].
  apply Rsqr_0_uniq. unfold Rsqr. lra.
Qed.

Lemma inner_zero_l (row u : list R) : Forall (λ x, x = 0%R) row → inner row u = 0%R.
Proof.
  unfold inner. intros H. revert u.
  induction H as [|x row -> _ IH]; intros [|y u]; try done.
  cbn [zip_with]. rewrite Rsum_cons, IH. lra.
Qed.

Lemma inner_zero_r (row u : list R) : Forall (λ x, x = 0%R) u → inner row u = 0%R.
Proof.
  unfold inner. intros H. revert row.
  induction H as [|y u -> _ IH]; intros [|x row]; try done.
  cbn [zip_with]. rewrite Rsum_cons, IH. lra.
Qed.

Lemma cosine_zero_norm (u row : list R) :
  norm2 row = 0%R ∨ norm2 u = 0%R → cosine u row = NaN.
Proof.
  intros Hz. unfold cosine, np_true_divide.
  rewrite decide_True by (destruct Hz as [-> | ->]; lra).
  rewrite decide_True; [done |].
  destruct Hz as [Hz|Hz]; [apply inner_zero_l | apply inner_zero_r]; by apply norm2_zero.
Qed.

(** C6.  Nothing guards the division of line 9: when the vector of a
    catalog entry or the user vector has norm zero, the divisor of that
    entry is zero, its similarity is nan, and the call returns a result all
    the same, raising nothing. *)
Theorem zero_norm_divides_by_zero
    (encode_skills : list string → ndarray R) (sort : list npfloat → list nat)
    (user_skills all_skills user_exchanges : list string)
    (feedback : option (gmap string (list string)))
    (u : list R) (cols : nat) (rows : list (list R)) (i : nat) (row : list R) :
  argsort_spec sort →
  encode_skills user_skills = Arr1 u →
  encode_skills all_skills = Arr2 cols rows →
  cols = length u →
  length rows = length all_skills →
  rows !! i = Some row →
  norm2 row = 0%R ∨ norm2 u = 0%R →
  ∃ w sims r,
    divisors encode_skills user_skills all_skills = Ok w
    ∧ w !! i = Some 0%R
    ∧ similarities encode_skills user_skills all_skills = Ok (Arr1 sims)
    ∧ sims !! i = Some NaN
    ∧ get_recommendations encode_skills sort user_skills all_skills user_exchanges feedback
      = Ok r.
Proof.
  intros Hsort Hu Hs Hcols Hlen Hrow Hz.
  pose proof (similarities_vector _ _ _ _ _ _ Hu Hs Hcols) as Hsim.
  destruct (get_recommendations_vector encode_skills sort user_skills all_skills
              user_exchanges feedback _ Hsort Hsim) as (names & Hget & _).
  { by rewrite length_fmap. }
  eexists _, _, _. split; [| split; [| split; [exact Hsim | split; [| exact Hget]]]].
  - unfold divisors. rewrite Hu, Hs. simpl. reflexivity.
  - rewrite !list_lookup_fmap, Hrow. simpl. f_equal.
    destruct Hz as [-> | ->]; lra.
  - rewrite list_lookup_fmap, Hrow. simpl. f_equal. by apply cosine_zero_norm.
Qed.

(** ** Runs on the one-hot encoder *)

Lemma squeezed_one_hot_wf vocabulary names :
  wf_array (squeezed_one_hot vocabulary names).
Proof.
  assert (wf_array (Arr2 (length vocabulary) (one_hot vocabulary <$> names))) as Hwf.
  { simpl. apply Forall_fmap, Forall_true. intros name. simpl.
    unfold one_hot. by rewrite length_fmap. }
  unfold squeezed_one_hot. by destruct names as [|name [|name' names]].
Qed.

Lemma norm2_unit (v : list R) : Rsum ((λ x, (x * x)%R) <$> v) = 1%R → norm2 v = 1%R.
Proof. intros H. unfold norm2. rewrite H. apply sqrt_1. Qed.

Lemma norm2_null (v : list R) : Rsum ((λ x, (x * x)%R) <$> v) = 0%R → norm2 v = 0%R.
Proof. intros H. unfold norm2. rewrite H. apply sqrt_0. Qed.

Lemma np_true_divide_finite x y : y ≠ 0%R → np_true_divide x y = Finite (x / y).
Proof. intros H. unfold np_true_divide. by rewrite decide_False. Qed.

Lemma cosine_unit u row :
  norm2 u = 1%R → norm2 row = 1%R → cosine u row = Finite (inner row u).
Proof.
  intros Hu Hr. unfold cosine. rewrite Hu, Hr, np_true_divide_finite by lra.
  f_equal. lra.
Qed.

Ltac decide_reals :=
  repeat (first [rewrite decide_True by (simpl; lra)
                | rewrite decide_False by (simpl; lra)]; cbn).

Ltac unit_cosines :=
  rewrite !cosine_unit by (apply norm2_unit; vm_compute; lra);
  repeat f_equal; vm_compute; lra.

Ltac names_of H :=
  repeat match type of H with
  | Forall2 _ _ _ => inversion H; clear H; subst
  end;
  repeat match goal with
  | H' : Forall2 _ _ _ |- _ => inversion H'; clear H'; subst
  end;
  repeat match goal with
  | H' : _ !! _ = Some _ |- _ => injection H' as <-
  end.

Lemma similarities_languages :
  similarities (squeezed_one_hot languages) ["python"] languages
  = Ok (Arr1 (Finite <$> [1; 0; 0; 0; 0; 0]%R)).
Proof.
  rewrite (similarities_vector _ _ _ (one_hot languages "python") 6
             (one_hot languages <$> languages)) by reflexivity.
  do 2 f_equal. unfold languages. cbn [fmap list_fmap]. unit_cosines.
Qed.

Lemma similarities_with_marker :
  similarities (squeezed_one_hot with_marker) ["python"] with_marker
  = Ok (Arr1 (Finite <$> [1; 0]%R)).
Proof.
  rewrite (similarities_vector _ _ _ (one_hot with_marker "python") 2
             (one_hot with_marker <$> with_marker)) by reflexivity.
  do 2 f_equal. unfold with_marker. cbn [fmap list_fmap]. unit_cosines.
Qed.

Lemma ranked_languages :
  ranked stable_argsort (Finite <$> [1; 0; 0; 0; 0; 0]%R) = [0; 5; 4; 3; 2].
Proof. unfold ranked, stable_argsort. cbn. decide_reals. reflexivity. Qed.

Lemma ranked_with_marker : ranked stable_argsort (Finite <$> [1; 0]%R) = [0; 1].
Proof. unfold ranked, stable_argsort. cbn. decide_reals. reflexivity. Qed.

(** The first example of the spec: six catalog entries, one user skill, no
    feedback.  Equal scores come out in reverse catalog order. *)
Example six_languages :
  get_recommendations (squeezed_one_hot languages) stable_argsort
    ["python"] languages [] None
  = Ok {| recommended_skills := ["python"; "ruby"; "c++"; "rust"; "go"];
          recommended_users := [];
          learning_path :=
            ["Foundation Skills"; "python"; "ruby"; "c++"; "Advanced Mastery"] |}.
Proof.
  destruct (get_recommendations_vector (squeezed_one_hot languages) stable_argsort
              ["python"] languages [] None _ stable_argsort_spec
              similarities_languages eq_refl) as (names & -> & Hnames).
  cbn [final_scores] in Hnames. rewrite ranked_languages in Hnames.
  names_of Hnames. done.
Qed.

(** Liking the top entry and disliking an entry of score 0 leaves the
    ranking as it was. *)
Example six_languages_disliking_java :
  get_recommendations (squeezed_one_hot languages) stable_argsort
    ["python"] languages [] (Some likes_python_dislikes_java)
  = Ok {| recommended_skills := ["python"; "ruby"; "c++"; "rust"; "go"];
          recommended_users := [];
          learning_path :=
            ["Foundation Skills"; "python"; "ruby"; "c++"; "Advanced Mastery"] |}.
Proof.
  destruct (get_recommendations_vector (squeezed_one_hot languages) stable_argsort
              ["python"] languages [] (Some likes_python_dislikes_java) _
              stable_argsort_spec similarities_languages eq_refl)
    as (names & -> & Hnames).
  change (final_scores _ _ _)
    with (Finite <$> [1 * 1.2; 0 * 0.8; 0; 0; 0; 0]%R) in Hnames.
  assert (ranked stable_argsort (Finite <$> [1 * 1.2; 0 * 0.8; 0; 0; 0; 0]%R)
          = [0; 5; 4; 3; 2]) as Hranked.
  { unfold ranked, stable_argsort. cbn. decide_reals. reflexivity. }
  rewrite Hranked in Hnames. names_of Hnames. done.
Qed.

(** The second example of the spec: a catalog of two. *)
Example two_languages :
  get_recommendations (squeezed_one_hot languages) stable_argsort
    ["python"] ["java"; "go"] [] None
  = Ok {| recommended_skills := ["go"; "java"];
          recommended_users := [];
          learning_path := ["Foundation Skills"; "go"; "java"; "Advanced Mastery"] |}.
Proof.
  assert (similarities (squeezed_one_hot languages) ["python"] ["java"; "go"]
          = Ok (Arr1 (Finite <$> [0; 0]%R))) as Hsim.
  { rewrite (similarities_vector _ _ _ (one_hot languages "python") 6
               (one_hot languages <$> ["java"; "go"])) by reflexivity.
    do 2 f_equal. cbn [fmap list_fmap]. unit_cosines. }
  destruct (get_recommendations_vector (squeezed_one_hot languages) stable_argsort
              ["python"] ["java"; "go"] [] None _ stable_argsort_spec Hsim eq_refl)
    as (names & -> & Hnames).
  cbn [final_scores] in Hnames.
  assert (ranked stable_argsort (Finite <$> [0; 0]%R) = [1; 0]) as Hranked.
  { unfold ranked, stable_argsort. cbn. decide_reals. reflexivity. }
  rewrite Hranked in Hnames. names_of Hnames. done.
Qed.

(** A name outside the vocabulary has the zero vector and the score nan,
    which sorts last and so is recommended first. *)
Example unknown_name_first :
  get_recommendations (squeezed_one_hot languages) stable_argsort
    ["python"] with_unknown [] None
  = Ok {| recommended_skills := ["cobol"; "java"];
          recommended_users := [];
          learning_path := ["Foundation Skills"; "cobol"; "java"; "Advanced Mastery"] |}.
Proof.
  assert (similarities (squeezed_one_hot languages) ["python"] with_unknown
          = Ok (Arr1 [Finite 0; NaN])) as Hsim.
  { rewrite (similarities_vector _ _ _ (one_hot languages "python") 6
               (one_hot languages <$> with_unknown)) by reflexivity.
    do 2 f_equal. unfold with_unknown. cbn [fmap list_fmap].
    rewrite (cosine_zero_norm _ (one_hot languages "cobol"))
      by (left; apply norm2_null; vm_compute; lra).
    unit_cosines. }
  destruct (get_recommendations_vector (squeezed_one_hot languages) stable_argsort
              ["python"] with_unknown [] None _ stable_argsort_spec Hsim eq_refl)
    as (names & -> & Hnames).
  cbn [final_scores] in Hnames.
  assert (ranked stable_argsort [Finite 0; NaN] = [1; 0]) as Hranked
    by reflexivity.
  rewrite Hranked in Hnames. names_of Hnames. done.
Qed.

(** An empty catalog gives an empty recommendation. *)
Example empty_catalog :
  get_recommendations (squeezed_one_hot languages) stable_argsort ["python"] [] [] None
  = Ok {| recommended_skills := [];
          recommended_users := [];
          learning_path := ["Foundation Skills"; "Advanced Mastery"] |}.
Proof. reflexivity. Qed.

(** With a row per user skill, shape (6, 2) is divided by shape (6,). *)
Example two_user_skills :
  get_recommendations (squeezed_one_hot languages) stable_argsort
    ["python"; "java"] languages [] None
  = Raise ValueError.
Proof. reflexivity. Qed.

(** With as many user skills as catalog entries the division broadcasts,
    the scores are a matrix, and a row of indices does not index a list. *)
Example as_many_user_skills_as_catalog_entries :
  get_recommendations (squeezed_one_hot languages) stable_argsort
    ["python"; "java"] ["go"; "rust"] [] None
  = Raise TypeError.
Proof. reflexivity. Qed.

(** A catalog encoded as one vector has no axis 1. *)
Example one_catalog_entry :
  get_recommendations (squeezed_one_hot languages) stable_argsort
    ["python"] ["java"] [] None
  = Raise AxisError.
Proof. reflexivity. Qed.

Example learning_path_three_skills :
  generate_learning_path ["python"; "java"; "go"] ["rust"; "c++"; "ruby"; "perl"]
  = ["Foundation Skills"; "Intermediate Topics"; "rust"; "c++"; "ruby"; "Advanced Mastery"].
Proof. reflexivity. Qed.

Example learning_path_two_skills :
  generate_learning_path ["python"; "java"] ["rust"]
  = ["Foundation Skills"; "rust"; "Advanced Mastery"].
Proof. reflexivity. Qed.

(** ** Concrete instances *)

Lemma top_five_by_descending_score_witness :
  argsort_spec stable_argsort
  ∧ similarities (squeezed_one_hot languages) ["python"] languages
    = Ok (Arr1 (Finite <$> [1; 0; 0; 0; 0; 0]%R))
  ∧ ∃ scores idxs r,
      pre_rank_scores (squeezed_one_hot languages) ["python"] languages
        (Some likes_python_dislikes_java)
      = Ok (Arr1 (Finite <$> scores))
      ∧ get_recommendations (squeezed_one_hot languages) stable_argsort
          ["python"] languages [] (Some likes_python_dislikes_java)
        = Ok r
      ∧ Forall2 (λ i s, languages !! i = Some s) idxs (recommended_skills r)
      ∧ NoDup idxs
      ∧ length idxs = 5 `min` length languages
      ∧ StronglySorted (score_ge scores) idxs
      ∧ ∀ i j, i ∈ idxs → j ∉ idxs → score_ge scores i j.
Proof.
  split; [apply stable_argsort_spec |]. split; [apply similarities_languages |].
  apply (top_five_by_descending_score (squeezed_one_hot languages) stable_argsort
           ["python"] languages [] (Some likes_python_dislikes_java)
           [1; 0; 0; 0; 0; 0]%R).
  - apply stable_argsort_spec.
  - apply similarities_languages.
  - reflexivity.
Defined.

Lemma recommended_skills_length_and_membership_witness :
  ∃ r,
    get_recommendations (squeezed_one_hot languages) stable_argsort
      ["python"] languages [] None
    = Ok r
    ∧ length (recommended_skills r) = 5 `min` length languages
    ∧ ∀ s, s ∈ recommended_skills r → s ∈ languages.
Proof.
  apply (recommended_skills_length_and_membership (squeezed_one_hot languages)
           stable_argsort ["python"] languages [] None
           (Finite <$> [1; 0; 0; 0; 0; 0]%R)).
  - apply stable_argsort_spec.
  - apply similarities_languages.
  - reflexivity.
Defined.

Lemma pre_rank_scores_languages :
  pre_rank_scores (squeezed_one_hot languages) ["python"] languages None
  = Ok (Arr1 (Finite <$> [1; 0; 0; 0; 0; 0]%R)).
Proof. rewrite pre_rank_scores_None. apply similarities_languages. Qed.


(** Why the amended C3 speaks of two products and of scores that are not
    below or not above the baseline: in float64 the two products of a name
    in both lists differ from the one product by 0.96 (here at the score
    1/sqrt 26), and the smallest positive float64 stays what it is under
    either product. *)
Lemma float64_two_products_differ_from_one :
  PrimFloat.eqb
    (float64_imul (float64_imul float64_inv_sqrt_26 float64_1_2) float64_0_8)
    (float64_imul float64_inv_sqrt_26 float64_0_96)
  = false.
Proof. vm_compute. reflexivity. Qed.

Lemma float64_smallest_score_stays :
  PrimFloat.ltb PrimFloat.zero float64_tiny = true
  ∧ float64_imul float64_tiny float64_1_2 = float64_tiny
  ∧ float64_imul float64_tiny float64_0_8 = float64_tiny.
Proof. repeat split; vm_compute; reflexivity. Qed.

Lemma norm2_fullstack : norm2 [1; 1; 1; 1]%R = 2%R.
Proof.
  unfold norm2. replace (Rsum _) with (2 * 2)%R by (vm_compute; lra).
  apply sqrt_square. lra.
Qed.

Lemma similarities_three_languages :
  similarities (squeezed_embedding stack_table 4) ["fullstack"] three_languages
  = Ok (Arr1 (Finite <$> [1 / 2; 1 / 2; 1 / 2]%R)).
Proof.
  rewrite (similarities_vector _ _ _ [1; 1; 1; 1]%R 4
             [[1; 0; 0; 0]; [0; 1; 0; 0]; [0; 0; 1; 0]]%R) by reflexivity.
  do 2 f_equal. cbn [fmap list_fmap]. unfold cosine.
  rewrite norm2_fullstack, !norm2_unit by (vm_compute; lra).
  rewrite !np_true_divide_finite by lra.
  repeat f_equal; vm_compute; lra.
Qed.


(** The scores of that run: 1/2 * 1.2 for "python", 1/2 * 1.2 * 0.8 for
    "java", 1/2 * 0.8 for "go". *)
Example three_languages_scores :
  pre_rank_scores (squeezed_embedding stack_table 4) ["fullstack"] three_languages
    (Some likes_python_java_dislikes_java_go)
  = Ok (Arr1 (Finite <$> [1 / 2 * 1.2; 1 / 2 * 1.2 * 0.8; 1 / 2 * 0.8]%R)).
Proof.
  rewrite (pre_rank_scores_vector _ _ _ _ _ similarities_three_languages eq_refl).
  reflexivity.
Qed.

Lemma feedback_frame_witness :
  ∃ adjusted,
    pre_rank_scores (squeezed_one_hot languages) ["python"] languages
      (Some likes_python_dislikes_java)
    = Ok (Arr1 adjusted)
    ∧ ∀ i skill, languages !! i = Some skill →
        skill ∉ feedback_get likes_python_dislikes_java "liked" →
        skill ∉ feedback_get likes_python_dislikes_java "disliked" →
        adjusted !! i = (Finite <$> [1; 0; 0; 0; 0; 0]%R) !! i.
Proof.
  apply (feedback_frame (squeezed_one_hot languages) ["python"] languages
           likes_python_dislikes_java (Finite <$> [1; 0; 0; 0; 0; 0]%R)).
  - apply pre_rank_scores_languages.
  - reflexivity.
Defined.

Lemma learning_path_layout_witness :
  learning_path
    {| recommended_skills := ["python"; "ruby"; "c++"; "rust"; "go"];
       recommended_users := [];
       learning_path :=
         ["Foundation Skills"; "python"; "ruby"; "c++"; "Advanced Mastery"] |}
  = ["Foundation Skills"]
    ++ (if decide (2 < length ["python"]) then ["Intermediate Topics"] else [])
    ++ take 3 ["python"; "ruby"; "c++"; "rust"; "go"] ++ ["Advanced Mastery"]
  ∧ head ["Foundation Skills"; "python"; "ruby"; "c++"; "Advanced Mastery"]
    = Some "Foundation Skills"
  ∧ last ["Foundation Skills"; "python"; "ruby"; "c++"; "Advanced Mastery"]
    = Some "Advanced Mastery".
Proof.
  apply (learning_path_layout (squeezed_one_hot languages) stable_argsort
           ["python"] languages [] None _ six_languages).
Defined.

Lemma run_with_marker :
  get_recommendations (squeezed_one_hot with_marker) stable_argsort
    ["python"] with_marker [] None
  = Ok {| recommended_skills := ["python"; "Intermediate Topics"];
          recommended_users := [];
          learning_path :=
            ["Foundation Skills"; "python"; "Intermediate Topics"; "Advanced Mastery"] |}.
Proof.
  destruct (get_recommendations_vector (squeezed_one_hot with_marker) stable_argsort
              ["python"] with_marker [] None _ stable_argsort_spec
              similarities_with_marker eq_refl) as (names & -> & Hnames).
  cbn [final_scores] in Hnames. rewrite ranked_with_marker in Hnames.
  names_of Hnames. done.
Qed.

(** C5 as stated fails: with one user skill and a catalog entry named
    "Intermediate Topics", the learning path contains that string. *)
Lemma marker_name_in_catalog :
  get_recommendations (squeezed_one_hot with_marker) stable_argsort
    ["python"] with_marker [] None
  = Ok {| recommended_skills := ["python"; "Intermediate Topics"];
          recommended_users := [];
          learning_path :=
            ["Foundation Skills"; "python"; "Intermediate Topics"; "Advanced Mastery"] |}
  ∧ "Intermediate Topics"
    ∈ ["Foundation Skills"; "python"; "Intermediate Topics"; "Advanced Mastery"]
  ∧ ¬ 2 < length ["python"].
Proof.
  split; [apply run_with_marker |]. split; [| simpl; lia].
  do 2 apply list_elem_of_further. apply list_elem_of_here.
Qed.

Lemma intermediate_topics_iff_witness :
  "Intermediate Topics"
  ∈ ["Foundation Skills"; "python"; "Intermediate Topics"; "Advanced Mastery"]
  ↔ 2 < length ["python"]
    ∨ "Intermediate Topics" ∈ take 3 ["python"; "Intermediate Topics"].
Proof.
  apply (intermediate_topics_iff (squeezed_one_hot with_marker) stable_argsort
           ["python"] with_marker [] None _ run_with_marker).
Defined.

Lemma zero_norm_divides_by_zero_witness :
  squeezed_one_hot languages with_unknown
  = Arr2 6 [one_hot languages "java"; one_hot languages "cobol"]
  ∧ norm2 (one_hot languages "cobol") = 0%R
  ∧ ∃ w sims r,
      divisors (squeezed_one_hot languages) ["python"] with_unknown = Ok w
      ∧ w !! 1 = Some 0%R
      ∧ similarities (squeezed_one_hot languages) ["python"] with_unknown
        = Ok (Arr1 sims)
      ∧ sims !! 1 = Some NaN
      ∧ get_recommendations (squeezed_one_hot languages) stable_argsort
          ["python"] with_unknown [] None
        = Ok r.
Proof.
  split; [reflexivity |].
  assert (norm2 (one_hot languages "cobol") = 0%R) as Hnull
    by (apply norm2_null; vm_compute; lra).
  split; [exact Hnull |].
  apply (zero_norm_divides_by_zero (squeezed_one_hot languages) stable_argsort
           ["python"] with_unknown [] None (one_hot languages "python") 6
           [one_hot languages "java"; one_hot languages "cobol"] 1
           (one_hot languages "cobol")).
  - apply stable_argsort_spec.
  - reflexivity.
  - reflexivity.
  - reflexivity.
  - reflexivity.
  - reflexivity.
  - left. exact Hnull.
Defined.

Lemma recommended_users_empty_witness :
  recommended_users
    {| recommended_skills := ["python"; "ruby"; "c++"; "rust"; "go"];
       recommended_users := [];
       learning_path :=
         ["Foundation Skills"; "python"; "ruby"; "c++"; "Advanced Mastery"] |}
  = [].
Proof.
  apply (recommended_users_empty (squeezed_one_hot languages) stable_argsort
           ["python"] languages [] None _ six_languages).
Defined.

Lemma get_recommendations_deterministic_witness :
  ∃ out,
    outcome (get_recommendations_st (allocating_encoder (squeezed_one_hot languages))
               stable_argsort 0 1 2 (Some 3) first_heap)
    = Some out
    ∧ outcome (get_recommendations_st (allocating_encoder (squeezed_one_hot languages))
                 stable_argsort 2 4 0 (Some 9) second_heap)
      = Some out
    ∧ first_heap ⊆ (get_recommendations_st
                      (allocating_encoder (squeezed_one_hot languages))
                      stable_argsort 0 1 2 (Some 3) first_heap).2
    ∧ second_heap ⊆ (get_recommendations_st
                       (allocating_encoder (squeezed_one_hot languages))
                       stable_argsort 2 4 0 (Some 9) second_heap).2.
Proof.
  apply (get_recommendations_deterministic
           (allocating_encoder (squeezed_one_hot languages))
           (squeezed_one_hot languages) stable_argsort
           first_heap second_heap 0 1 2 (Some 3) 2 4 0 (Some 9)
           ["python"] languages [] (Some likes_python_dislikes_java)).
  - apply allocating_encoder_pure.
  - apply first_heap_holds.
  - apply second_heap_holds.
Defined.

(** The first example of the spec, run on the first heap. *)
Example six_languages_on_the_heap :
  outcome (get_recommendations_st (allocating_encoder (squeezed_one_hot languages))
             stable_argsort 0 1 2 None first_heap)
  = Some (Ok {| recommended_skills := ["python"; "ruby"; "c++"; "rust"; "go"];
                recommended_users := [];
                learning_path :=
                  ["Foundation Skills"; "python"; "ruby"; "c++"; "Advanced Mastery"] |}).
Proof.
  rewrite <- six_languages.
  destruct (get_recommendations_st_refines
              (allocating_encoder (squeezed_one_hot languages))
              (squeezed_one_hot languages) stable_argsort (allocating_encoder_pure _)
              first_heap 0 1 2 None ["python"] languages [] None) as [_ Hout].
  { split; [reflexivity | reflexivity | reflexivity | constructor]. }
  by rewrite <- surjective_pairing in Hout.
Qed.

Lemma user_exchanges_unused_witness :
  get_recommendations (squeezed_one_hot languages) stable_argsort
    ["python"] languages [] None
  = get_recommendations (squeezed_one_hot languages) stable_argsort
      ["python"] languages ["guitar for python"; "go for rust"] None.
Proof.
  apply (user_exchanges_unused (squeezed_one_hot languages) stable_argsort
           ["python"] languages [] None
           ["python"] languages ["guitar for python"; "go for rust"] None);
    reflexivity.
Defined.

(** * Further properties *)

(** ** Shapes *)

Lemma np_divide_ndim (a : ndarray R) (w : list R) (q : ndarray npfloat) :
  np_divide a w = Ok q → ndim q = Nat.max 1 (ndim a).
Proof.
  destruct a as [x|v|cols rows]; simpl; repeat case_decide;
    intros [= <-]; done.
Qed.

Lemma imul_at_ndim c i (a a' : ndarray npfloat) :
  imul_at c i a = Ok a' → ndim a' = ndim a.
Proof.
  destruct a as [x|v|cols rows]; simpl; repeat case_decide;
    intros [= <-]; done.
Qed.

Lemma feedback_step_ndim fb i skill (a a' : ndarray npfloat) :
  feedback_step fb i skill a = Ok a' → ndim a' = ndim a.
Proof.
  unfold feedback_step. intros H. apply bind_Ok in H as (b & Hb & H).
  assert (ndim b = ndim a) as <-.
  { destruct (decide (skill ∈ feedback_get fb "liked"));
      [by eapply imul_at_ndim | by injection Hb as <-]. }
  destruct (decide (skill ∈ feedback_get fb "disliked"));
    [by eapply imul_at_ndim | by injection H as <-].
Qed.

Lemma feedback_loop_ndim fb skills : ∀ i (a a' : ndarray npfloat),
  feedback_loop fb i skills a = Ok a' → ndim a' = ndim a.
Proof.
  induction skills as [|skill skills IH]; intros i a a'; simpl.
  - by intros [= <-].
  - intros H. apply bind_Ok in H as (b & Hb & H).
    apply IH in H. apply feedback_step_ndim in Hb. congruence.
Qed.

Lemma adjust_ndim feedback all_skills (a a' : ndarray npfloat) :
  adjust feedback all_skills a = Ok a' → ndim a' = ndim a.
Proof.
  unfold adjust. destruct feedback as [fb|]; [| by intros [= <-]].
  case_decide; [by intros [= <-] | apply feedback_loop_ndim].
Qed.

Lemma similarities_ndim (encode_skills : list string → ndarray R)
    (user_skills all_skills : list string) (sims : ndarray npfloat) :
  similarities encode_skills user_skills all_skills = Ok sims → 1 ≤ ndim sims.
Proof.
  unfold similarities. intros H. inv_bind H.
  apply np_divide_ndim in H. lia.
Qed.

Lemma similarities_vector_inv (encode_skills : list string → ndarray R)
    (user_skills all_skills : list string) (sims : list npfloat) :
  similarities encode_skills user_skills all_skills = Ok (Arr1 sims) →
  ∃ u cols rows,
    encode_skills user_skills = Arr1 u
    ∧ encode_skills all_skills = Arr2 cols rows
    ∧ cols = length u
    ∧ sims = cosine u <$> rows.
Proof.
  intros H.
  destruct (encode_skills all_skills) as [x|v|cols rows] eqn:Hs,
    (encode_skills user_skills) as [y|u|cols' rows'] eqn:Hu;
    try (unfold similarities, divisors in H; rewrite Hs, Hu in H; simpl in H;
         by repeat (case_decide; simpl in H)).
  destruct (decide (cols = length u)) as [Hcols|Hcols].
  - rewrite (similarities_vector _ _ _ _ _ _ Hu Hs Hcols) in H.
    injection H as <-. by exists u, cols, rows.
  - unfold similarities, divisors in H. rewrite Hs, Hu in H. simpl in H.
    by rewrite decide_False in H.
Qed.

Lemma pick_matrix (all_skills : list string) cols (rows : list (list nat)) names :
  pick all_skills (Arr2 cols rows) = Ok names → names = [].
Proof. destruct rows; simpl; [by intros [= <-] | done]. Qed.

(** X1.  A call that returns a recommendation that is not empty had the
    user skills encoded as one vector and the catalog as a matrix of the
    same width: with any other shapes of the two encodings the call raises
    or recommends nothing. *)
Theorem nonempty_recommendation_shapes
    (encode_skills : list string → ndarray R) (sort : list npfloat → list nat)
    (user_skills all_skills user_exchanges : list string)
    (feedback : option (gmap string (list string))) (r : recommendation) :
  get_recommendations encode_skills sort user_skills all_skills user_exchanges feedback
  = Ok r →
  recommended_skills r ≠ [] →
  ∃ u cols rows,
    encode_skills user_skills = Arr1 u
    ∧ encode_skills all_skills = Arr2 cols rows
    ∧ cols = length u.
Proof.
  unfold get_recommendations. intros H Hne. inv_bind H. injection H as <-.
  simpl in Hne.
  pose proof (similarities_ndim _ _ _ _ Ha) as Hdim.
  pose proof (adjust_ndim _ _ _ _ Ha0) as Hdim'.
  destruct a as [x|sims|cols rows]; simpl in Hdim; [lia | |].
  - destruct (similarities_vector_inv _ _ _ _ Ha) as (u & cols & rows & ? & ? & ? & _).
    by exists u, cols, rows.
  - destruct a0 as [x'|sims'|cols' rows']; simpl in Hdim'; try lia.
    unfold top_indices in Ha1. simpl in Ha1. injection Ha1 as <-.
    by apply pick_matrix in Ha2.
Qed.

Lemma nonempty_recommendation_shapes_witness :
  ∃ u cols rows,
    squeezed_one_hot languages ["python"] = Arr1 u
    ∧ squeezed_one_hot languages languages = Arr2 cols rows
    ∧ cols = length u.
Proof.
  apply (nonempty_recommendation_shapes (squeezed_one_hot languages) stable_argsort
           ["python"] languages [] None _ six_languages).
  done.
Defined.

(** ** Feedback that changes nothing, and feedback out of bounds *)

Lemma feedback_step_unmentioned fb i skill (a : ndarray npfloat) :
  ¬ mentions fb skill → feedback_step fb i skill a = Ok a.
Proof.
  unfold mentions, feedback_step. intros H.
  rewrite !decide_False by tauto. simpl. by rewrite decide_False by tauto.
Qed.

Lemma feedback_loop_unmentioned fb skills : ∀ i (a : ndarray npfloat),
  Forall (λ skill, ¬ mentions fb skill) skills →
  feedback_loop fb i skills a = Ok a.
Proof.
  induction skills as [|skill skills IH]; intros i a H; [done |].
  apply Forall_cons in H as [Hskill H]. simpl.
  rewrite feedback_step_unmentioned by done. simpl. by apply IH.
Qed.

Lemma mentions_empty skill : ¬ mentions ∅ skill.
Proof.
  unfold mentions. rewrite !feedback_get_empty. intros [H|H]; by apply elem_of_nil in H.
Qed.

(** A truthy dict or not, the outcome is that of the loop. *)
Lemma adjust_Some fb all_skills (a : ndarray npfloat) :
  adjust (Some fb) all_skills a = feedback_loop fb 0 all_skills a.
Proof.
  unfold adjust. case_decide as Hfb; [| done]. subst fb.
  rewrite feedback_loop_unmentioned; [done |].
  apply Forall_true, mentions_empty.
Qed.

Lemma adjust_off_catalog (fb : gmap string (list string))
    (all_skills : list string) (a : ndarray npfloat) :
  (∀ skill, skill ∈ all_skills → ¬ mentions fb skill) →
  adjust (Some fb) all_skills a = adjust None all_skills a.
Proof.
  intros H. rewrite adjust_Some, feedback_loop_unmentioned; [done |].
  by apply Forall_forall.
Qed.

(** X5.  Feedback whose two lists name no catalog skill changes nothing:
    the call has the outcome of the same call without feedback, result or
    exception, whatever the shape of the scores. *)
Theorem feedback_off_catalog
    (encode_skills : list string → ndarray R) (sort : list npfloat → list nat)
    (user_skills all_skills user_exchanges : list string)
    (fb : gmap string (list string)) :
  (∀ skill, skill ∈ all_skills → ¬ mentions fb skill) →
  get_recommendations encode_skills sort user_skills all_skills user_exchanges (Some fb)
  = get_recommendations encode_skills sort user_skills all_skills user_exchanges None.
Proof.
  intros H. unfold get_recommendations.
  destruct (similarities encode_skills user_skills all_skills) as [sims|e]; [| done].
  cbn [bind]. by rewrite adjust_off_catalog.
Qed.

Lemma feedback_step_ext fb fb' i skill (a : ndarray npfloat) :
  (skill ∈ feedback_get fb "liked" ↔ skill ∈ feedback_get fb' "liked") →
  (skill ∈ feedback_get fb "disliked" ↔ skill ∈ feedback_get fb' "disliked") →
  feedback_step fb i skill a = feedback_step fb' i skill a.
Proof.
  intros Hl Hd. unfold feedback_step.
  destruct (decide (skill ∈ feedback_get fb "liked")),
    (decide (skill ∈ feedback_get fb' "liked")); try tauto;
    destruct (decide (skill ∈ feedback_get fb "disliked")),
      (decide (skill ∈ feedback_get fb' "disliked")); tauto || done.
Qed.

Lemma feedback_loop_ext fb fb' skills : ∀ i (a : ndarray npfloat),
  (∀ skill, skill ∈ feedback_get fb "liked" ↔ skill ∈ feedback_get fb' "liked") →
  (∀ skill, skill ∈ feedback_get fb "disliked" ↔ skill ∈ feedback_get fb' "disliked") →
  feedback_loop fb i skills a = feedback_loop fb' i skills a.
Proof.
  induction skills as [|skill skills IH]; intros i a Hl Hd; [done |].
  simpl. rewrite (feedback_step_ext fb fb') by done.
  destruct (feedback_step fb' i skill a); [| done]. simpl. by apply IH.
Qed.

(** X6.  The two feedback lists are read as sets: two feedback dicts whose
    liked lists have the same members and whose disliked lists have the same
    members give the same outcome, so a repeated name counts once and the
    order of the names does not matter. *)
Theorem feedback_lists_are_sets
    (encode_skills : list string → ndarray R) (sort : list npfloat → list nat)
    (user_skills all_skills user_exchanges : list string)
    (fb fb' : gmap string (list string)) :
  (∀ skill, skill ∈ feedback_get fb "liked" ↔ skill ∈ feedback_get fb' "liked") →
  (∀ skill, skill ∈ feedback_get fb "disliked" ↔ skill ∈ feedback_get fb' "disliked") →
  get_recommendations encode_skills sort user_skills all_skills user_exchanges (Some fb)
  = get_recommendations encode_skills sort user_skills all_skills user_exchanges (Some fb').
Proof.
  intros Hl Hd. unfold get_recommendations.
  destruct (similarities encode_skills user_skills all_skills) as [sims|e]; [| done].
  cbn [bind]. by rewrite !adjust_Some, (feedback_loop_ext fb fb').
Qed.

Lemma feedback_step_vector fb i skill (v : list npfloat) :
  (mentions fb skill ∧ length v ≤ i
   ∧ feedback_step fb i skill (Arr1 v) = Raise IndexError)
  ∨ (¬ (mentions fb skill ∧ length v ≤ i)
     ∧ ∃ v', feedback_step fb i skill (Arr1 v) = Ok (Arr1 v')
             ∧ length v' = length v).
Proof.
  destruct (decide (mentions fb skill)) as [Hm|Hm].
  - destruct (decide (length v ≤ i)) as [Hi|Hi].
    + left. split; [done |]. split; [done |].
      unfold feedback_step, imul_at. destruct Hm as [Hl|Hd].
      * rewrite (decide_True (P:=skill ∈ _)) by done.
        by rewrite decide_False by lia.
      * destruct (decide (skill ∈ feedback_get fb "liked"));
          [by rewrite decide_False by lia |].
        cbn [bind]. rewrite decide_True by done. by rewrite decide_False by lia.
    + right. split; [tauto |].
      destruct (lookup_lt_is_Some_2 v i) as [x Hx]; [lia |].
      apply list_elem_of_split_length in Hx as (pre & post & -> & ->).
      rewrite feedback_step_middle. eexists. split; [done |].
      rewrite !length_app. simpl. done.
  - right. split; [tauto |]. exists v.
    by rewrite feedback_step_unmentioned.
Qed.

Lemma feedback_loop_vector fb skills : ∀ i (v : list npfloat),
  ((∃ k skill, skills !! k = Some skill ∧ mentions fb skill ∧ length v ≤ i + k)
   ∧ feedback_loop fb i skills (Arr1 v) = Raise IndexError)
  ∨ (¬ (∃ k skill, skills !! k = Some skill ∧ mentions fb skill ∧ length v ≤ i + k)
     ∧ ∃ v', feedback_loop fb i skills (Arr1 v) = Ok (Arr1 v')
             ∧ length v' = length v).
Proof.
  induction skills as [|skill skills IH]; intros i v.
  - right. split; [by intros (k & s & Hk & _) | by exists v].
  - simpl.
    destruct (feedback_step_vector fb i skill v)
      as [(Hm & Hi & ->)|(Hnot & v1 & -> & Hlen)].
    + left. split; [| done]. exists 0, skill. split; [done |]. split; [done | lia].
    + cbn [bind]. destruct (IH (S i) v1) as [[(k & s & Hk & Hm & Hi) ->]|[Hnone Hok]].
      * left. split; [| done]. exists (S k), s. split; [done |]. split; [done | lia].
      * right. split.
        -- intros ([|k] & s & Hk & Hm & Hi).
           ++ injection Hk as ->. apply Hnot. split; [done | lia].
           ++ apply Hnone. exists k, s. split; [done |]. split; [done | lia].
        -- destruct Hok as (v' & Hv' & Hlen'). exists v'. split; [done | lia].
Qed.

(** X7.  On a vector of scores, applying the feedback raises [IndexError]
    exactly when some catalog entry named in [liked] or [disliked] sits at
    an index the vector does not have, which a catalog that has more entries
    than the encoder gave rows allows; the whole call then raises it too. *)
Theorem feedback_index_error
    (encode_skills : list string → ndarray R) (sort : list npfloat → list nat)
    (user_skills all_skills user_exchanges : list string)
    (fb : gmap string (list string)) (base : list npfloat) :
  similarities encode_skills user_skills all_skills = Ok (Arr1 base) →
  (pre_rank_scores encode_skills user_skills all_skills (Some fb) = Raise IndexError
   ↔ ∃ k skill, all_skills !! k = Some skill ∧ mentions fb skill ∧ length base ≤ k)
  ∧ ((∃ k skill, all_skills !! k = Some skill ∧ mentions fb skill ∧ length base ≤ k) →
     get_recommendations encode_skills sort user_skills all_skills user_exchanges (Some fb)
     = Raise IndexError).
Proof.
  intros Hsim.
  assert (pre_rank_scores encode_skills user_skills all_skills (Some fb)
          = feedback_loop fb 0 all_skills (Arr1 base)) as Hpre.
  { unfold pre_rank_scores. rewrite Hsim. cbn [bind]. apply adjust_Some. }
  destruct (feedback_loop_vector fb all_skills 0 base)
    as [[Hex Hloop]|[Hnone (v' & Hloop & _)]]; simpl in *.
  - split; [by rewrite Hpre, Hloop |]. intros _.
    rewrite get_recommendations_pre_rank, Hpre, Hloop. done.
  - split; [| by intros Hex]. rewrite Hpre, Hloop. split; [done | by intros Hex].
Qed.

(** ** The endpoint *)

Lemma feedback_get_dict_liked (f : Api.Feedback) :
  feedback_get (Api.dict f) "liked" = Api.liked f.
Proof. unfold feedback_get, Api.dict. by rewrite lookup_insert_eq. Qed.

Lemma feedback_get_dict_disliked (f : Api.Feedback) :
  feedback_get (Api.dict f) "disliked" = Api.disliked f.
Proof.
  unfold feedback_get, Api.dict.
  rewrite lookup_insert_ne by done. by rewrite lookup_insert_eq.
Qed.

(** X8.  A request whose feedback names no catalog skill, in particular
    one whose feedback has the two default empty lists, gets the response of
    the same request without feedback. *)
Theorem recommend_feedback_off_catalog
    (encode_skills : list string → ndarray R) (sort : list npfloat → list nat)
    (user_id : Z) (request : Api.RecommendationRequest) (f : Api.Feedback) :
  Api.feedback request = Some f →
  (∀ skill, skill ∈ Api.all_skills request →
            (skill ∉ Api.liked f) ∧ (skill ∉ Api.disliked f)) →
  Api.recommend encode_skills sort user_id request
  = Api.recommend encode_skills sort user_id
      {| Api.user_id := Api.user_id request;
         Api.user_skills := Api.user_skills request;
         Api.all_skills := Api.all_skills request;
         Api.user_exchanges := Api.user_exchanges request;
         Api.feedback := None |}.
Proof.
  intros Hf Hoff. unfold Api.recommend. rewrite Hf. simpl.
  unfold get_recommendations.
  destruct (similarities _ _ _) as [sims|e]; [| done].
  cbn [bind]. rewrite adjust_off_catalog; [done |].
  intros skill Hskill. unfold mentions.
  rewrite feedback_get_dict_liked, feedback_get_dict_disliked.
  destruct (Hoff skill Hskill). tauto.
Qed.

(** X9.  The endpoint applies the feedback of the request entry by entry:
    with one score per catalog entry, the scores it ranks are the
    similarities, times 1.2 for a name in [liked], times 0.8 for a name in
    [disliked]. *)
Theorem recommend_ranks_adjusted_scores
    (encode_skills : list string → ndarray R) (sort : list npfloat → list nat)
    (user_id : Z) (request : Api.RecommendationRequest) (f : Api.Feedback)
    (base : list npfloat) :
  argsort_spec sort →
  Api.feedback request = Some f →
  similarities encode_skills (Api.user_skills request) (Api.all_skills request)
  = Ok (Arr1 base) →
  length base = length (Api.all_skills request) →
  ∃ r scores,
    Api.recommend encode_skills sort user_id request = Ok r
    ∧ Forall2 (λ i s, Api.all_skills request !! i = Some s)
        (ranked sort scores) (recommended_skills r)
    ∧ length scores = length base
    ∧ ∀ i skill b, Api.all_skills request !! i = Some skill → base !! i = Some b →
        scores !! i
        = Some (let b := if decide (skill ∈ Api.liked f)
                         then np_multiply b 1.2 else b in
                if decide (skill ∈ Api.disliked f) then np_multiply b 0.8 else b).
Proof.
  intros Hsort Hf Hsim Hlen. unfold Api.recommend. rewrite Hf.
  destruct (get_recommendations_vector encode_skills sort (Api.user_skills request)
              (Api.all_skills request) (Api.user_exchanges request)
              (Some (Api.dict f)) base Hsort Hsim Hlen) as (names & Hget & Hnames).
  eexists _, _. split; [exact Hget |]. split; [exact Hnames |].
  split; [rewrite final_scores_length by done; lia |].
  intros i skill b Hs Hb.
  rewrite (final_scores_lookup _ _ _ _ _ Hs), Hb. simpl. unfold adjusted_score.
  by rewrite feedback_get_dict_liked, feedback_get_dict_disliked.
Qed.

(** ** More on the ranking *)

Lemma get_recommendations_ranked
    (encode_skills : list string → ndarray R) (sort : list npfloat → list nat)
    (user_skills all_skills user_exchanges : list string)
    (feedback : option (gmap string (list string))) (final : list npfloat) :
  argsort_spec sort →
  pre_rank_scores encode_skills user_skills all_skills feedback = Ok (Arr1 final) →
  length final = length all_skills →
  ∃ names,
    get_recommendations encode_skills sort user_skills all_skills user_exchanges feedback
    = Ok {| recommended_skills := names;
            recommended_users := [];
            learning_path := generate_learning_path user_skills names |}
    ∧ Forall2 (λ i s, all_skills !! i = Some s) (ranked sort final) names.
Proof.
  intros Hsort Hpre Hlen.
  destruct (pick_vector all_skills (ranked sort final)) as (names & Hpick & Hnames).
  { apply Forall_forall. intros i Hi. apply ranked_elem_of in Hi; [| done]. lia. }
  exists names. split; [| done].
  rewrite get_recommendations_pre_rank, Hpre. unfold top_indices.
  cbn [bind np_argsort np_last5 np_reversed]. unfold ranked in Hpick.
  by rewrite Hpick.
Qed.

Lemma names_NoDup (l : list string) (idxs : list nat) (names : list string) :
  NoDup l → NoDup idxs →
  Forall2 (λ i s, l !! i = Some s) idxs names →
  NoDup names.
Proof.
  intros Hl Hidxs Hnames. apply NoDup_alt. intros a b s Ha Hb.
  destruct (Forall2_lookup_r _ _ _ _ _ Hnames Ha) as (i & Hi & His).
  destruct (Forall2_lookup_r _ _ _ _ _ Hnames Hb) as (j & Hj & Hjs).
  assert (i = j) as -> by exact (NoDup_lookup l i j s Hl His Hjs).
  exact (NoDup_lookup idxs a b j Hidxs Hi Hj).
Qed.

(** X10.  When the catalog has no repeated name and the ranked scores are
    a vector with one score per entry, no name is recommended twice. *)
Theorem recommended_skills_distinct
    (encode_skills : list string → ndarray R) (sort : list npfloat → list nat)
    (user_skills all_skills user_exchanges : list string)
    (feedback : option (gmap string (list string))) (final : list npfloat) :
  argsort_spec sort →
  pre_rank_scores encode_skills user_skills all_skills feedback = Ok (Arr1 final) →
  length final = length all_skills →
  NoDup all_skills →
  ∃ r,
    get_recommendations encode_skills sort user_skills all_skills user_exchanges feedback
    = Ok r
    ∧ NoDup (recommended_skills r).
Proof.
  intros Hsort Hpre Hlen Hnodup.
  destruct (get_recommendations_ranked _ _ _ _ user_exchanges _ _ Hsort Hpre Hlen)
    as (names & Hget & Hnames).
  eexists. split; [exact Hget |]. simpl.
  eapply names_NoDup; [done | | done]. by apply ranked_NoDup.
Qed.

Lemma names_of_all (l : list string) (idxs : list nat) (names : list string) :
  idxs ≡ₚ seq 0 (length l) →
  Forall2 (λ i s, l !! i = Some s) idxs names →
  names ≡ₚ l.
Proof.
  intros Hperm Hnames.
  assert (names = (λ i, default "" (l !! i)) <$> idxs) as ->.
  { clear Hperm. induction Hnames as [|i s idxs names Hi _ IH]; [done |].
    csimpl. by rewrite Hi, IH. }
  rewrite Hperm. clear.
  assert (∀ k, (λ i, default "" (l !! i)) <$> seq k (length l - k) = drop k l) as H.
  { intros k. remember (length l - k) as n eqn:Hn. revert k Hn.
    induction n as [|n IH]; intros k Hn.
    - simpl. by rewrite drop_ge by lia.
    - destruct (lookup_lt_is_Some_2 l k) as [s Hs]; [lia |].
      csimpl. rewrite Hs. simpl. rewrite IH by lia.
      by rewrite (drop_S _ _ _ Hs). }
  specialize (H 0). rewrite Nat.sub_0_r, drop_0 in H. by rewrite H.
Qed.

(** X11.  A catalog of at most five entries is recommended in full: with
    one score per entry, [recommended_skills] is a rearrangement of
    [all_skills]. *)
Theorem small_catalog_recommended_in_full
    (encode_skills : list string → ndarray R) (sort : list npfloat → list nat)
    (user_skills all_skills user_exchanges : list string)
    (feedback : option (gmap string (list string))) (final : list npfloat) :
  argsort_spec sort →
  pre_rank_scores encode_skills user_skills all_skills feedback = Ok (Arr1 final) →
  length final = length all_skills →
  length all_skills ≤ 5 →
  ∃ r,
    get_recommendations encode_skills sort user_skills all_skills user_exchanges feedback
    = Ok r
    ∧ recommended_skills r ≡ₚ all_skills.
Proof.
  intros Hsort Hpre Hlen Hsmall.
  destruct (get_recommendations_ranked _ _ _ _ user_exchanges _ _ Hsort Hpre Hlen)
    as (names & Hget & Hnames).
  eexists. split; [exact Hget |]. simpl.
  eapply names_of_all; [| done].
  destruct (Hsort final) as [Hperm _]. unfold ranked, last5.
  rewrite reverse_Permutation.
  replace (length (sort final) - 5) with 0
    by (rewrite (sort_length sort Hsort); lia).
  by rewrite drop_0, Hperm, Hlen.
Qed.

Lemma np_le_antisym (a b : npfloat) : np_le a b → np_le b a → a = b.
Proof. destruct a, b; simpl; try done. intros. f_equal. lra. Qed.

Lemma argsort_unique (sort sort' : list npfloat → list nat) (v : list npfloat) :
  argsort_spec sort → argsort_spec sort' → NoDup v → sort v = sort' v.
Proof.
  intros Hsort Hsort' Hv.
  destruct (Hsort v) as [Hp Hs], (Hsort' v) as [Hp' Hs'].
  eapply StronglySorted_unique_strong; [| done | done | by rewrite Hp, Hp'].
  intros i j Hi Hj Hij Hji.
  rewrite Hp in Hi. rewrite Hp' in Hj. apply elem_of_seq in Hi, Hj.
  destruct (lookup_lt_is_Some_2 v i) as [x Hx]; [lia |].
  destruct (lookup_lt_is_Some_2 v j) as [y Hy]; [lia |].
  unfold key_le, key in Hij, Hji. rewrite Hx, Hy in Hij, Hji. simpl in *.
  assert (x = y) as -> by by apply np_le_antisym.
  exact (NoDup_lookup v i j y Hv Hx Hy).
Qed.

(** X12.  When the ranked scores are a vector without two equal entries,
    the outcome does not depend on how [argsort] orders equal scores: any
    two sorts that meet [argsort_spec] give the same outcome. *)
Theorem distinct_scores_fix_the_outcome
    (encode_skills : list string → ndarray R) (sort sort' : list npfloat → list nat)
    (user_skills all_skills user_exchanges : list string)
    (feedback : option (gmap string (list string))) (final : list npfloat) :
  argsort_spec sort → argsort_spec sort' →
  pre_rank_scores encode_skills user_skills all_skills feedback = Ok (Arr1 final) →
  NoDup final →
  get_recommendations encode_skills sort user_skills all_skills user_exchanges feedback
  = get_recommendations encode_skills sort' user_skills all_skills user_exchanges feedback.
Proof.
  intros Hsort Hsort' Hpre Hfinal.
  rewrite !get_recommendations_pre_rank, Hpre. unfold top_indices.
  cbn [bind np_argsort]. by rewrite (argsort_unique sort sort').
Qed.

(** X13.  When the ranked scores are real numbers, one per catalog entry,
    and one entry has a score above every other, that entry is recommended
    first. *)
Theorem best_score_first
    (encode_skills : list string → ndarray R) (sort : list npfloat → list nat)
    (user_skills all_skills user_exchanges : list string)
    (feedback : option (gmap string (list string)))
    (scores : list R) (i : nat) (skill : string) (x : R) :
  argsort_spec sort →
  pre_rank_scores encode_skills user_skills all_skills feedback
  = Ok (Arr1 (Finite <$> scores)) →
  length scores = length all_skills →
  all_skills !! i = Some skill →
  scores !! i = Some x →
  (∀ j y, j ≠ i → scores !! j = Some y → (y < x)%R) →
  ∃ r,
    get_recommendations encode_skills sort user_skills all_skills user_exchanges feedback
    = Ok r
    ∧ head (recommended_skills r) = Some skill.
Proof.
  intros Hsort Hpre Hlen Hskill Hx Hbest.
  destruct (get_recommendations_ranked _ _ _ _ user_exchanges _ _ Hsort Hpre)
    as (names & Hget & Hnames); [by rewrite length_fmap |].
  eexists. split; [exact Hget |]. simpl.
  set (idxs := ranked sort (Finite <$> scores)) in *.
  assert (i < length scores) as Hi by by eapply lookup_lt_Some.
  destruct idxs as [|h idxs'] eqn:Hidxs.
  { pose proof (ranked_length sort Hsort (Finite <$> scores)) as Hl.
    fold idxs in Hl. rewrite Hidxs, length_fmap in Hl. simpl in Hl. lia. }
  inversion Hnames as [|? s ? names' Hh _]; subst. simpl.
  destruct (decide (h = i)) as [->|Hne]; [congruence |]. exfalso.
  assert (h ∈ ranked sort (Finite <$> scores)) as Hh_in
    by (fold idxs; rewrite Hidxs; apply list_elem_of_here).
  pose proof (ranked_elem_of sort Hsort _ _ Hh_in) as Hh_lt.
  rewrite length_fmap in Hh_lt.
  destruct (lookup_lt_is_Some_2 scores h Hh_lt) as [y Hy].
  specialize (Hbest h y Hne Hy).
  assert (score_ge scores h i) as Hge.
  { apply key_le_score_ge.
    destruct (decide (i ∈ ranked sort (Finite <$> scores))) as [Hin|Hout].
    - pose proof (ranked_descending sort Hsort (Finite <$> scores)) as Hdesc.
      fold idxs in Hdesc, Hin. rewrite Hidxs in Hdesc, Hin.
      apply StronglySorted_cons in Hdesc as [Hall _].
      apply elem_of_cons in Hin as [->|Hin]; [done |].
      rewrite Forall_forall in Hall. by apply Hall.
    - apply (ranked_top sort Hsort); [done | by rewrite length_fmap | done]. }
  specialize (Hge y x Hy Hx). lra.
Qed.


Lemma pick_elem_of (all_skills : list string) (indices : ndarray nat)
    (names : list string) :
  pick all_skills indices = Ok names → ∀ s, s ∈ names → s ∈ all_skills.
Proof.
  destruct indices as [x|idxs|cols rows]; [done | |].
  - simpl. intros H s Hs. apply comprehension_Ok in H.
    apply list_elem_of_lookup in Hs as [k Hk].
    destruct (Forall2_lookup_r _ _ _ _ _ H Hk) as (i & _ & Hi).
    unfold list_getitem in Hi.
    destruct (all_skills !! i) as [s'|] eqn:Hs'; [| done].
    injection Hi as ->. by eapply list_elem_of_lookup_2.
  - intros H s Hs. apply pick_matrix in H as ->. by apply elem_of_nil in Hs.
Qed.

Lemma pick_top_length (sort : list npfloat → list nat) (all_skills : list string)
    (sims : ndarray npfloat) (top : ndarray nat) (names : list string) :
  top_indices sort sims = Ok top → pick all_skills top = Ok names →
  length names ≤ 5.
Proof.
  unfold top_indices. intros Htop Hpick. inv_bind Htop.
  destruct top as [x|idxs|cols rows].
  - done.
  - simpl in Hpick. apply comprehension_Ok, Forall2_length in Hpick.
    rewrite <- Hpick.
    destruct a as [x|tail|cols rows]; [done | | done].
    injection Htop as <-. rewrite length_reverse.
    destruct (np_argsort sort sims) as [x|v|cols rows]; [done | | done].
    injection Ha as <-. rewrite last5_length. apply Nat.le_min_r.
  - apply pick_matrix in Hpick as ->. simpl. lia.
Qed.

(** X15.  Whatever the encoder and whatever [argsort] returns, a call that
    returns recommends at most five skills, all of them catalog entries. *)
Theorem recommendation_within_catalog
    (encode_skills : list string → ndarray R) (sort : list npfloat → list nat)
    (user_skills all_skills user_exchanges : list string)
    (feedback : option (gmap string (list string))) (r : recommendation) :
  get_recommendations encode_skills sort user_skills all_skills user_exchanges feedback
  = Ok r →
  length (recommended_skills r) ≤ 5
  ∧ ∀ s, s ∈ recommended_skills r → s ∈ all_skills.
Proof.
  unfold get_recommendations. intros H. inv_bind H. injection H as <-. simpl.
  split; [by eapply pick_top_length | by eapply pick_elem_of].
Qed.

(** X16.  The learning path of a returned result has between two and six
    entries, and each of them is one of the three markers or a catalog
    entry. *)
Theorem learning_path_entries
    (encode_skills : list string → ndarray R) (sort : list npfloat → list nat)
    (user_skills all_skills user_exchanges : list string)
    (feedback : option (gmap string (list string))) (r : recommendation) :
  get_recommendations encode_skills sort user_skills all_skills user_exchanges feedback
  = Ok r →
  2 ≤ length (learning_path r) ≤ 6
  ∧ ∀ s, s ∈ learning_path r →
         s = "Foundation Skills" ∨ s = "Intermediate Topics"
         ∨ s = "Advanced Mastery" ∨ s ∈ all_skills.
Proof.
  intros H.
  assert (∀ s, s ∈ recommended_skills r → s ∈ all_skills) as Hin.
  { pose proof H as H'. unfold get_recommendations in H'. inv_bind H'.
    injection H' as <-. simpl. by eapply pick_elem_of. }
  apply get_recommendations_Ok in H as [_ ->].
  rewrite generate_learning_path_layout. split.
  - rewrite !length_app, length_take.
    pose proof (Nat.le_min_l 3 (length (recommended_skills r))).
    case_decide; cbn [length]; lia.
  - intros s. rewrite !elem_of_app, !list_elem_of_singleton.
    intros [-> | [Hs | [Hs | ->]]]; [tauto | | | tauto].
    + case_decide; [apply list_elem_of_singleton in Hs as ->; tauto |].
      by apply elem_of_nil in Hs.
    + right. right. right. apply Hin.
      apply elem_of_take in Hs as (k & Hk & _). by eapply list_elem_of_lookup_2.
Qed.

(** ** Liking a recommended skill *)

Lemma ranked_stays (sort : list npfloat → list nat) (v v' : list R) (i : nat) :
  argsort_spec sort →
  length v = length v' →
  i ∈ ranked sort (Finite <$> v) →
  (∀ x x', v !! i = Some x → v' !! i = Some x' → (x < x')%R) →
  (∀ j x x', j ≠ i → v !! j = Some x → v' !! j = Some x' → (x' <= x)%R) →
  i ∈ ranked sort (Finite <$> v').
Proof.
  intros Hsort Hlen Hi Hup Hdown.
  destruct (decide (i ∈ ranked sort (Finite <$> v'))) as [|Hout]; [done |].
  exfalso.
  pose proof (ranked_elem_of sort Hsort _ _ Hi) as Hi_lt.
  rewrite length_fmap in Hi_lt.
  destruct (lookup_lt_is_Some_2 v i Hi_lt) as [x Hx].
  destruct (lookup_lt_is_Some_2 v' i) as [x' Hx']; [lia |].
  specialize (Hup x x' Hx Hx').
  assert (∀ j, j ∈ i :: ranked sort (Finite <$> v') → j ∈ ranked sort (Finite <$> v))
    as Hsub.
  { intros j Hj. apply elem_of_cons in Hj as [->|Hj]; [done |].
    destruct (decide (j ∈ ranked sort (Finite <$> v))) as [|Hjout]; [done |].
    exfalso.
    pose proof (ranked_elem_of sort Hsort _ _ Hj) as Hj_lt.
    rewrite length_fmap in Hj_lt.
    assert (j ≠ i) as Hne by (intros ->; done).
    destruct (lookup_lt_is_Some_2 v j) as [y Hy]; [lia |].
    destruct (lookup_lt_is_Some_2 v' j Hj_lt) as [y' Hy'].
    specialize (Hdown j y y' Hne Hy Hy').
    assert (score_ge v' j i) as Hge'.
    { apply key_le_score_ge.
      apply (ranked_top sort Hsort); [done | rewrite length_fmap; lia | done]. }
    assert (score_ge v i j) as Hge.
    { apply key_le_score_ge.
      apply (ranked_top sort Hsort); [done | rewrite length_fmap; lia | done]. }
    specialize (Hge' y' x' Hy' Hx'). specialize (Hge x y Hx Hy). lra. }
  assert (NoDup (i :: ranked sort (Finite <$> v'))) as Hnodup
    by (constructor; [done | by apply ranked_NoDup]).
  pose proof (submseteq_length _ _ (NoDup_submseteq _ _ Hnodup Hsub)) as Hle.
  simpl in Hle. rewrite !(ranked_length sort Hsort), !length_fmap, Hlen in Hle. lia.
Qed.

(** X17.  Liking a recommended skill keeps it recommended, once the liking
    raises its score.  When the catalog has no repeated name, every
    similarity is a real number that is not negative, a skill is
    recommended without feedback, and feedback that likes this skill only
    and does not dislike it leaves it with a score above its similarity,
    then the skill is still recommended with that feedback, whatever else
    the feedback dislikes and however the sort orders equal scores. *)
Theorem liking_keeps_recommended
    (encode_skills : list string → ndarray R) (sort : list npfloat → list nat)
    (user_skills all_skills user_exchanges : list string)
    (fb : gmap string (list string)) (base scores : list R)
    (i : nat) (skill : string) (b b' : R) (r : recommendation) :
  argsort_spec sort →
  similarities encode_skills user_skills all_skills = Ok (Arr1 (Finite <$> base)) →
  pre_rank_scores encode_skills user_skills all_skills (Some fb)
  = Ok (Arr1 (Finite <$> scores)) →
  length base = length all_skills →
  NoDup all_skills →
  Forall (λ x, (0 <= x)%R) base →
  all_skills !! i = Some skill →
  base !! i = Some b →
  scores !! i = Some b' →
  (b < b')%R →
  (∀ s, s ∈ feedback_get fb "liked" ↔ s = skill) →
  skill ∉ feedback_get fb "disliked" →
  get_recommendations encode_skills sort user_skills all_skills user_exchanges None
  = Ok r →
  skill ∈ recommended_skills r →
  ∃ r',
    get_recommendations encode_skills sort user_skills all_skills user_exchanges (Some fb)
    = Ok r'
    ∧ skill ∈ recommended_skills r'.
Proof.
  intros Hsort Hsim Hpre Hlen Hnodup Hpos Hskill Hb Hb' Hrise Hliked Hnot Hget Hin.
  assert (length (Finite <$> base) = length all_skills) as Hlen'
    by by rewrite length_fmap.
  destruct (get_recommendations_vector encode_skills sort user_skills all_skills
              user_exchanges None _ Hsort Hsim Hlen') as (names & Hget0 & Hnames).
  rewrite Hget in Hget0. injection Hget0 as ->. simpl in Hin, Hnames.
  assert (i ∈ ranked sort (Finite <$> base)) as Hi.
  { apply list_elem_of_lookup in Hin as [k Hk].
    destruct (Forall2_lookup_r _ _ _ _ _ Hnames Hk) as (j & Hj & Hjs).
    assert (j = i) as -> by exact (NoDup_lookup all_skills j i skill Hnodup Hjs Hskill).
    by eapply list_elem_of_lookup_2. }
  assert (final_scores (Some fb) all_skills (Finite <$> base) = Finite <$> scores)
    as Hfin.
  { rewrite (pre_rank_scores_vector _ _ _ (Some fb) _ Hsim Hlen') in Hpre.
    by injection Hpre. }
  assert (length scores = length base) as Hlens.
  { rewrite <- (length_fmap Finite scores), <- Hfin, final_scores_length by done.
    done. }
  destruct (get_recommendations_vector encode_skills sort user_skills all_skills
              user_exchanges (Some fb) _ Hsort Hsim Hlen') as (names' & Hget' & Hnames').
  rewrite Hfin in Hnames'.
  eexists. split; [exact Hget' |]. simpl.
  assert (∀ j s x x', all_skills !! j = Some s → base !! j = Some x →
            scores !! j = Some x' → Finite x' = adjusted_score fb s (Finite x))
    as Hadj.
  { intros j s x x' Hs Hx Hx'.
    pose proof (final_scores_lookup fb all_skills (Finite <$> base) j s Hs) as Hl.
    rewrite Hfin, !list_lookup_fmap, Hx, Hx' in Hl. simpl in Hl. congruence. }
  assert (i ∈ ranked sort (Finite <$> scores)) as Hi'.
  { apply (ranked_stays sort base scores i Hsort); [lia | done | |].
    - intros x x' Hx Hx'. congruence.
    - intros j x x' Hne Hx Hx'.
      destruct (lookup_lt_is_Some_2 all_skills j) as [s Hs];
        [apply lookup_lt_Some in Hx; lia |].
      assert (s ≠ skill) as Hs_ne.
      { intros ->. apply Hne.
        exact (NoDup_lookup all_skills j i skill Hnodup Hs Hskill). }
      pose proof (Hadj j s x x' Hs Hx Hx') as Heq.
      unfold adjusted_score in Heq.
      rewrite (decide_False (P:=s ∈ feedback_get fb "liked")) in Heq
        by (rewrite Hliked; done).
      assert (0 <= x)%R as Hx0.
      { rewrite Forall_forall in Hpos. apply Hpos. by eapply list_elem_of_lookup_2. }
      case_decide; simpl in Heq; injection Heq as ->; lra. }
  apply list_elem_of_lookup in Hi' as [k Hk].
  destruct (Forall2_lookup_l _ _ _ _ _ Hnames' Hk) as (s & Hs & His).
  assert (s = skill) as -> by congruence.
  by eapply list_elem_of_lookup_2.
Qed.

(** ** Concrete instances of the further properties *)

Lemma languages_NoDup : NoDup languages.
Proof. apply (bool_decide_unpack _). by vm_compute. Qed.

Lemma pre_rank_scores_with_marker :
  pre_rank_scores (squeezed_one_hot with_marker) ["python"] with_marker None
  = Ok (Arr1 (Finite <$> [1; 0]%R)).
Proof. rewrite pre_rank_scores_None. apply similarities_with_marker. Qed.

(** A repeated catalog name that is liked: the encoder gives two rows for
    three entries, and the loop reaches index 2. *)
Example liked_repeated_name :
  get_recommendations (distinct_one_hot languages) stable_argsort
    ["python"] with_repeat [] (Some {["liked" := ["java"]]})
  = Raise IndexError.
Proof. reflexivity. Qed.

(** The same catalog without feedback is ranked on two scores, and neither
    index reaches the third entry. *)
Example repeated_name_without_feedback :
  ∃ r,
    get_recommendations (distinct_one_hot languages) stable_argsort
      ["python"] with_repeat [] None
    = Ok r
    ∧ length (recommended_skills r) = 2.
Proof.
  assert (similarities (distinct_one_hot languages) ["python"] with_repeat
          = Ok (Arr1 (Finite <$> [0; 0]%R))) as Hsim.
  { rewrite (similarities_vector _ _ _ (one_hot languages "python") 6
               (one_hot languages <$> ["go"; "java"])) by reflexivity.
    do 2 f_equal. cbn [fmap list_fmap]. unit_cosines. }
  unfold get_recommendations, top_indices. rewrite Hsim.
  cbn [bind adjust np_argsort np_last5 np_reversed].
  assert (reverse (last5 (stable_argsort (Finite <$> [0; 0]%R))) = [1; 0]) as ->.
  { unfold stable_argsort. cbn. decide_reals. reflexivity. }
  eexists. split; [reflexivity | reflexivity].
Qed.

Lemma feedback_off_catalog_witness :
  get_recommendations (squeezed_one_hot languages) stable_argsort
    ["python"] languages [] (Some {["liked" := ["cobol"]]})
  = get_recommendations (squeezed_one_hot languages) stable_argsort
      ["python"] languages [] None.
Proof.
  apply (feedback_off_catalog (squeezed_one_hot languages) stable_argsort
           ["python"] languages [] {["liked" := ["cobol"]]}).
  apply Forall_forall. apply (bool_decide_unpack _). by vm_compute.
Defined.

Lemma feedback_lists_are_sets_witness :
  get_recommendations (squeezed_one_hot languages) stable_argsort
    ["python"] languages []
    (Some (<["liked" := ["java"; "python"; "java"]]> {["disliked" := ["go"]]}))
  = get_recommendations (squeezed_one_hot languages) stable_argsort
      ["python"] languages []
      (Some (<["liked" := ["python"; "java"]]> {["disliked" := ["go"; "go"]]})).
Proof.
  apply (feedback_lists_are_sets (squeezed_one_hot languages) stable_argsort
           ["python"] languages []
           (<["liked" := ["java"; "python"; "java"]]> {["disliked" := ["go"]]})
           (<["liked" := ["python"; "java"]]> {["disliked" := ["go"; "go"]]})).
  - intros skill.
    change (skill ∈ ["java"; "python"; "java"] ↔ skill ∈ ["python"; "java"]).
    rewrite !elem_of_cons, !elem_of_nil. tauto.
  - intros skill.
    change (skill ∈ ["go"] ↔ skill ∈ ["go"; "go"]).
    rewrite !elem_of_cons, !elem_of_nil. tauto.
Defined.

Lemma feedback_index_error_witness :
  (pre_rank_scores (distinct_one_hot languages) ["python"] with_repeat
     (Some {["liked" := ["java"]]})
   = Raise IndexError
   ↔ ∃ k skill, with_repeat !! k = Some skill
                ∧ mentions {["liked" := ["java"]]} skill
                ∧ length (cosine (one_hot languages "python")
                            <$> (one_hot languages <$> ["go"; "java"])) ≤ k)
  ∧ ((∃ k skill, with_repeat !! k = Some skill
                 ∧ mentions {["liked" := ["java"]]} skill
                 ∧ length (cosine (one_hot languages "python")
                             <$> (one_hot languages <$> ["go"; "java"])) ≤ k) →
     get_recommendations (distinct_one_hot languages) stable_argsort
       ["python"] with_repeat [] (Some {["liked" := ["java"]]})
     = Raise IndexError).
Proof.
  apply (feedback_index_error (distinct_one_hot languages) stable_argsort
           ["python"] with_repeat [] {["liked" := ["java"]]}).
  by rewrite (similarities_vector _ _ _ (one_hot languages "python") 6
                (one_hot languages <$> ["go"; "java"])).
Defined.

Lemma recommend_feedback_off_catalog_witness :
  Api.recommend (squeezed_one_hot languages) stable_argsort 7
    {| Api.user_id := 7;
       Api.user_skills := ["python"];
       Api.all_skills := languages;
       Api.user_exchanges := [];
       Api.feedback := Some {| Api.liked := []; Api.disliked := [] |} |}
  = Api.recommend (squeezed_one_hot languages) stable_argsort 7
      {| Api.user_id := 7;
         Api.user_skills := ["python"];
         Api.all_skills := languages;
         Api.user_exchanges := [];
         Api.feedback := None |}.
Proof.
  apply (recommend_feedback_off_catalog (squeezed_one_hot languages) stable_argsort 7
           {| Api.user_id := 7;
              Api.user_skills := ["python"];
              Api.all_skills := languages;
              Api.user_exchanges := [];
              Api.feedback := Some {| Api.liked := []; Api.disliked := [] |} |}
           {| Api.liked := []; Api.disliked := [] |}).
  - reflexivity.
  - intros skill _. simpl. split; apply not_elem_of_nil.
Defined.

Lemma recommend_ranks_adjusted_scores_witness :
  ∃ r scores,
    Api.recommend (squeezed_one_hot languages) stable_argsort 7
      {| Api.user_id := 7;
         Api.user_skills := ["python"];
         Api.all_skills := languages;
         Api.user_exchanges := [];
         Api.feedback := Some {| Api.liked := ["python"]; Api.disliked := ["java"] |} |}
    = Ok r
    ∧ Forall2 (λ i s, languages !! i = Some s)
        (ranked stable_argsort scores) (recommended_skills r)
    ∧ length scores = length (Finite <$> [1; 0; 0; 0; 0; 0]%R)
    ∧ ∀ i skill b, languages !! i = Some skill →
        (Finite <$> [1; 0; 0; 0; 0; 0]%R) !! i = Some b →
        scores !! i
        = Some (let b := if decide (skill ∈ ["python"])
                         then np_multiply b 1.2 else b in
                if decide (skill ∈ ["java"]) then np_multiply b 0.8 else b).
Proof.
  apply (recommend_ranks_adjusted_scores (squeezed_one_hot languages) stable_argsort 7
           {| Api.user_id := 7;
              Api.user_skills := ["python"];
              Api.all_skills := languages;
              Api.user_exchanges := [];
              Api.feedback :=
                Some {| Api.liked := ["python"]; Api.disliked := ["java"] |} |}
           {| Api.liked := ["python"]; Api.disliked := ["java"] |}
           (Finite <$> [1; 0; 0; 0; 0; 0]%R)).
  - apply stable_argsort_spec.
  - reflexivity.
  - apply similarities_languages.
  - reflexivity.
Defined.

Lemma recommended_skills_distinct_witness :
  ∃ r,
    get_recommendations (squeezed_one_hot languages) stable_argsort
      ["python"] languages [] None
    = Ok r
    ∧ NoDup (recommended_skills r).
Proof.
  apply (recommended_skills_distinct (squeezed_one_hot languages) stable_argsort
           ["python"] languages [] None (Finite <$> [1; 0; 0; 0; 0; 0]%R)).
  - apply stable_argsort_spec.
  - apply pre_rank_scores_languages.
  - reflexivity.
  - apply languages_NoDup.
Defined.

Lemma small_catalog_recommended_in_full_witness :
  ∃ r,
    get_recommendations (squeezed_one_hot with_marker) stable_argsort
      ["python"] with_marker [] None
    = Ok r
    ∧ recommended_skills r ≡ₚ with_marker.
Proof.
  apply (small_catalog_recommended_in_full (squeezed_one_hot with_marker) stable_argsort
           ["python"] with_marker [] None (Finite <$> [1; 0]%R)).
  - apply stable_argsort_spec.
  - apply pre_rank_scores_with_marker.
  - reflexivity.
  - simpl. lia.
Defined.

Lemma NoDup_one_zero : NoDup (Finite <$> [1; 0]%R).
Proof.
  repeat constructor.
  - rewrite list_elem_of_singleton. intros [= H]. lra.
  - apply not_elem_of_nil.
Qed.

Lemma tie_reversing_argsort_spec : argsort_spec tie_reversing_argsort.
Proof.
  intros v. unfold tie_reversing_argsort.
  rewrite <- (reverse_Permutation (seq 0 (length v))) at 2.
  generalize (reverse (seq 0 (length v))) as idxs.
  induction idxs as [|i idxs [IHp IHs]]; simpl.
  - split; [done | constructor].
  - split; [by rewrite insert_index_Permutation, IHp | by apply insert_index_sorted].
Qed.

(** On equal scores the two sorts disagree, and so do the recommendations. *)
Example two_languages_tie_reversed :
  get_recommendations (squeezed_one_hot languages) tie_reversing_argsort
    ["python"] ["java"; "go"] [] None
  = Ok {| recommended_skills := ["java"; "go"];
          recommended_users := [];
          learning_path := ["Foundation Skills"; "java"; "go"; "Advanced Mastery"] |}.
Proof.
  assert (similarities (squeezed_one_hot languages) ["python"] ["java"; "go"]
          = Ok (Arr1 (Finite <$> [0; 0]%R))) as Hsim.
  { rewrite (similarities_vector _ _ _ (one_hot languages "python") 6
               (one_hot languages <$> ["java"; "go"])) by reflexivity.
    do 2 f_equal. cbn [fmap list_fmap]. unit_cosines. }
  destruct (get_recommendations_vector (squeezed_one_hot languages)
              tie_reversing_argsort ["python"] ["java"; "go"] [] None _
              tie_reversing_argsort_spec Hsim eq_refl) as (names & -> & Hnames).
  cbn [final_scores] in Hnames.
  assert (ranked tie_reversing_argsort (Finite <$> [0; 0]%R) = [0; 1]) as Hranked.
  { unfold ranked, tie_reversing_argsort. cbn. decide_reals. reflexivity. }
  rewrite Hranked in Hnames. names_of Hnames. done.
Qed.

Lemma distinct_scores_fix_the_outcome_witness :
  get_recommendations (squeezed_one_hot with_marker) stable_argsort
    ["python"] with_marker [] None
  = get_recommendations (squeezed_one_hot with_marker) tie_reversing_argsort
      ["python"] with_marker [] None.
Proof.
  apply (distinct_scores_fix_the_outcome (squeezed_one_hot with_marker)
           stable_argsort tie_reversing_argsort
           ["python"] with_marker [] None (Finite <$> [1; 0]%R)).
  - apply stable_argsort_spec.
  - apply tie_reversing_argsort_spec.
  - apply pre_rank_scores_with_marker.
  - apply NoDup_one_zero.
Defined.

Lemma best_score_first_witness :
  ∃ r,
    get_recommendations (squeezed_one_hot with_marker) stable_argsort
      ["python"] with_marker [] None
    = Ok r
    ∧ head (recommended_skills r) = Some "python".
Proof.
  apply (best_score_first (squeezed_one_hot with_marker) stable_argsort
           ["python"] with_marker [] None [1; 0]%R 0 "python" 1%R).
  - apply stable_argsort_spec.
  - apply pre_rank_scores_with_marker.
  - reflexivity.
  - reflexivity.
  - reflexivity.
  - intros [|[|j]] y Hne Hy; [done | | done].
    injection Hy as <-. lra.
Defined.


Lemma recommendation_within_catalog_witness :
  length ["python"; "ruby"; "c++"; "rust"; "go"] ≤ 5
  ∧ ∀ s, s ∈ ["python"; "ruby"; "c++"; "rust"; "go"] → s ∈ languages.
Proof.
  apply (recommendation_within_catalog (squeezed_one_hot languages) stable_argsort
           ["python"] languages [] None _ six_languages).
Defined.

Lemma learning_path_entries_witness :
  2 ≤ length ["Foundation Skills"; "python"; "ruby"; "c++"; "Advanced Mastery"] ≤ 6
  ∧ ∀ s, s ∈ ["Foundation Skills"; "python"; "ruby"; "c++"; "Advanced Mastery"] →
         s = "Foundation Skills" ∨ s = "Intermediate Topics"
         ∨ s = "Advanced Mastery" ∨ s ∈ languages.
Proof.
  apply (learning_path_entries (squeezed_one_hot languages) stable_argsort
           ["python"] languages [] None _ six_languages).
Defined.

Lemma liking_keeps_recommended_witness :
  ∃ r',
    get_recommendations (squeezed_one_hot languages) stable_argsort
      ["python"] languages [] (Some likes_python_dislikes_java)
    = Ok r'
    ∧ "python" ∈ recommended_skills r'.
Proof.
  apply (liking_keeps_recommended (squeezed_one_hot languages) stable_argsort
           ["python"] languages [] likes_python_dislikes_java
           [1; 0; 0; 0; 0; 0]%R [1 * 1.2; 0 * 0.8; 0; 0; 0; 0]%R 0 "python"
           1%R (1 * 1.2)%R
           {| recommended_skills := ["python"; "ruby"; "c++"; "rust"; "go"];
              recommended_users := [];
              learning_path :=
                ["Foundation Skills"; "python"; "ruby"; "c++"; "Advanced Mastery"] |}).
  - apply stable_argsort_spec.
  - apply similarities_languages.
  - by rewrite (pre_rank_scores_vector _ _ _ _ _ similarities_languages eq_refl).
  - reflexivity.
  - apply languages_NoDup.
  - repeat constructor; lra.
  - reflexivity.
  - reflexivity.
  - reflexivity.
  - lra.
  - intros s. change (s ∈ ["python"] ↔ s = "python").
    apply list_elem_of_singleton.
  - change ("python" ∉ ["java"]). rewrite list_elem_of_singleton. done.
  - apply six_languages.
  - apply list_elem_of_here.
Defined.
